(** * keras_ocr.tools: box geometry, line assembly, decoding and QA scoring

    A shallow embedding of the deterministic parts of
    [src/keras_ocr/tools.py] and the properties checked on them.

    Conventions of the embedding.
    - A Python call either returns a value or raises: [result A] with
      [Ok] and [Raise], threaded with [let*].
    - Integers are [Z].  Python and NumPy floats are modelled by exact
      rationals ([Q]); rounding of the binary representation is not
      modelled.
    - A NumPy image is the list of its rows; an (N, 2) array of points is
      a list of pairs.
    - Library calls whose algorithm lives outside the repository
      (cv2.resize, shapely's minimum rotated rectangle, numpy's argsort,
      the float parser) are Section variables. *)

From Stdlib Require Import String Ascii Bool ZArith QArith Qround Qabs Qminmax Lia Lqa.
From Stdlib Require Import List Permutation Sorted.
Import ListNotations.

Local Open Scope Z_scope.

(** ** Python outcomes *)

Inductive exn : Type :=
| ZeroDivisionError
| NotImplementedError (msg : string)
| ValueError (msg : string)
| AssertionError (msg : string)
| IndexError
| AttributeError
| UnboundLocalError
| TypeError
| cv2_error.

Inductive result (A : Type) : Type :=
| Ok (a : A)
| Raise (e : exn).

Arguments Ok {A} a.
Arguments Raise {A} e.

Definition bind {A B : Type} (m : result A) (k : A -> result B) : result B :=
  match m with
  | Ok a => k a
  | Raise e => Raise e
  end.

Notation "'let*' x ':=' m 'in' k" := (bind m (fun x => k))
  (at level 10, x pattern, m at level 100, k at level 200).

(** [for x in xs: acc = body(acc, x)], stopping at the first exception. *)
Fixpoint for_each {A S : Type} (body : S -> A -> result S) (xs : list A) (acc : S)
  : result S :=
  match xs with
  | [] => Ok acc
  | x :: rest => let* acc' := body acc x in for_each body rest acc'
  end.

(** [[f(x) for x in xs]], stopping at the first exception. *)
Fixpoint map_result {A B : Type} (f : A -> result B) (xs : list A) : result (list B) :=
  match xs with
  | [] => Ok []
  | x :: rest =>
      let* y := f x in
      let* ys := map_result f rest in
      Ok (y :: ys)
  end.

(** Python's [seq[i]] for an integer index: negative indices count from
    the end, anything else out of range raises IndexError. *)
Definition py_index {A : Type} (l : list A) (i : Z) : result A :=
  let n := Z.of_nat (length l) in
  let j := if i <? 0 then i + n else i in
  if (0 <=? j) && (j <? n) then
    match nth_error l (Z.to_nat j) with
    | Some a => Ok a
    | None => Raise IndexError
    end
  else Raise IndexError.

(** ** Numbers *)

(** [int(x)] on a float: truncation towards zero. *)
Definition py_int (q : Q) : Z := Z.quot (Qnum q) (Z.pos (Qden q)).

(** [round(x)] to an integer, ties to the even neighbour. *)
Definition round_half_even (q : Q) : Z :=
  let f := Qfloor q in
  match Qcompare (q - inject_Z f) (1 # 2) with
  | Lt => f
  | Gt => f + 1
  | Eq => if Z.even f then f else f + 1
  end.

(** [round(x, 2)]: the nearest multiple of 1/100. *)
Definition py_round2 (q : Q) : Q := Qred (round_half_even (q * 100) # 100).

(** ** QA scoring engine *)

Module QA.

(** A point of an annotation or of a predicted box: [[x, y]]. *)
Definition point : Type := (Z * Z)%type.

(** Four points, indexed [0..3]. *)
Record quad : Type := Quad { pt0 : point; pt1 : point; pt2 : point; pt3 : point }.

(** One dictionary built by [objects_bb]: a single key and its polygon. *)
Record gt_entry : Type := GtEntry { gt_key : string; gt_coord : quad }.

(** One element of the pipeline's prediction list: [(text, box)]. *)
Definition prediction : Type := (string * quad)%type.

(** The nested [compare_difference] of [precision]. *)
Definition compare_difference (number_a number_b : Z) : bool :=
  let delta := 10 in
  let max_first := Z.max number_a number_b in
  let min_first := Z.min number_a number_b in
  if min_first + delta >=? max_first then true else false.

(** Body of [for i in range(len(predict))] for one ground-truth entry.
    [second_true] and [second_predict] are bound by the source and never
    read again. *)
Definition precision_inner (key : string) (first_true second_true : point)
    (correct_answer : Z) (p : prediction) : Z :=
  if String.eqb (fst p) key then
    let predict_coord := snd p in
    let first_predict := pt0 predict_coord in
    let second_predict := pt2 predict_coord in
    if compare_difference (fst first_predict) (fst first_true)
       && compare_difference (snd first_predict) (snd first_true)
    then correct_answer + 1
    else correct_answer
  else correct_answer.

(** Body of [for i in gt_object]. *)
Definition precision_outer (predict : list prediction) (correct_answer : Z)
    (i : gt_entry) : Z :=
  let key := gt_key i in
  let true_coord := gt_coord i in
  let first_true := pt0 true_coord in
  let second_true := pt1 true_coord in
  fold_left (precision_inner key first_true second_true) predict correct_answer.

(** The value of [correct_answer] when both loops are over. *)
Definition correct_answer (gt_object : list gt_entry) (predict : list prediction) : Z :=
  fold_left (precision_outer predict) gt_object 0.

(** [precision(gt_object, predict)]: the division of two Python ints
    raises ZeroDivisionError on a zero divisor. *)
Definition precision (gt_object : list gt_entry) (predict : list prediction)
  : result Q :=
  let c := correct_answer gt_object predict in
  let n := Z.of_nat (length gt_object) in
  if n =? 0 then Raise ZeroDivisionError
  else Ok (py_round2 (inject_Z c / inject_Z n)).

(** Exceptions that come from a [raise] or [assert] statement of
    tools.py, as opposed to faults of the interpreter or of a library. *)
Definition guard_error (e : exn) : bool :=
  match e with
  | NotImplementedError _ | AssertionError _ => true
  | _ => false
  end.

(** The test [precision] applies to one ground-truth entry and one
    prediction, with the tolerance written as a distance. *)
Definition matches (e : gt_entry) (p : prediction) : bool :=
  String.eqb (fst p) (gt_key e)
  && (Z.abs (fst (pt0 (snd p)) - fst (pt0 (gt_coord e))) <=? 10)
  && (Z.abs (snd (pt0 (snd p)) - snd (pt0 (gt_coord e))) <=? 10).

(** Number of (entry, prediction) pairs that pass [matches]. *)
Definition matching_pairs (gt_object : list gt_entry) (predict : list prediction) : Z :=
  fold_right (fun e acc => Z.of_nat (length (filter (matches e) predict)) + acc)
             0 gt_object.






(** *** Annotation files *)

(** An ElementTree element: tag, text ([None] when empty) and children. *)
#[local] Unset Elimination Schemes.
Inductive element : Type :=
| Element (tag : string) (text : option string) (children : list element).
#[local] Set Elimination Schemes.

Definition tag (e : element) : string := let 'Element t _ _ := e in t.
Definition text (e : element) : option string := let 'Element _ x _ := e in x.
Definition children (e : element) : list element := let 'Element _ _ c := e in c.

(** [s.split(sep)] for a one-character separator. *)
Fixpoint split_char (sep : ascii) (s : string) : list string :=
  match s with
  | EmptyString => [EmptyString]
  | String c rest =>
      if Ascii.eqb c sep then EmptyString :: split_char sep rest
      else match split_char sep rest with
           | [] => [String c EmptyString]
           | w :: ws => String c w :: ws
           end
  end.

(** [x == y] on an element text and a Python string. *)
Definition text_eqb (x : option string) (y : string) : bool :=
  match x with
  | Some s => String.eqb s y
  | None => false
  end.

Definition point_eqb (p q : point) : bool :=
  (fst p =? fst q) && (snd p =? snd q).

Definition quad_eqb (a b : quad) : bool :=
  point_eqb (pt0 a) (pt0 b) && point_eqb (pt1 a) (pt1 b)
  && point_eqb (pt2 a) (pt2 b) && point_eqb (pt3 a) (pt3 b).

(** [==] on two of the one-key dictionaries. *)
Definition gt_entry_eqb (a b : gt_entry) : bool :=
  String.eqb (gt_key a) (gt_key b) && quad_eqb (gt_coord a) (gt_coord b).

(** [l.remove(x)]: drops the first element equal to [x]. *)
Fixpoint list_remove (x : gt_entry) (l : list gt_entry) : list gt_entry :=
  match l with
  | [] => []
  | y :: rest => if gt_entry_eqb y x then rest else y :: list_remove x rest
  end.

Section Parse.

(** [int(float(c.text))], a composition of two builtins; the argument is
    the element's text. *)
Variable int_of_float_text : option string -> result Z.

(** [for c in j: if c.tag == 'x' or c.tag == 'y': point += [...]]. *)
Definition read_point (j : element) : result (list Z) :=
  for_each (fun point c =>
              if String.eqb (tag c) "x" || String.eqb (tag c) "y" then
                let* v := int_of_float_text (text c) in Ok (point ++ [v])
              else Ok point)
           (children j) [].

(** [coord = []; for j in el: if j.tag == "pt": ...; coord += [point]]. *)
Definition read_polygon (el : element) : result (list (list Z)) :=
  for_each (fun coord j =>
              if String.eqb (tag j) "pt" then
                let* point := read_point j in Ok (coord ++ [point])
              else Ok coord)
           (children el) [].

(** The locals [values] and [coord] of [objects_bb]; [coord] is unbound
    until the first polygon is met and then outlives the object that
    bound it. *)
Record locals : Type := Locals { values : list string; coord : option (list (list Z)) }.

(** Body of [for el in i]. *)
Definition read_child (st : locals) (el : element) : result locals :=
  let st := Locals [] (coord st) in
  if String.eqb (tag el) "attributes" then
    match text el with
    | None => Raise AttributeError
    | Some t =>
        let* value := py_index (split_char "="%char t) 1 in
        Ok (Locals (values st ++ [value]) (coord st))
    end
  else if String.eqb (tag el) "polygon" then
    let* c := read_polygon el in Ok (Locals (values st) (Some c))
  else Ok st.

(** [coord[k][0], coord[k][1]]. *)
Definition coord_point (c : list (list Z)) (k : Z) : result point :=
  let* row := py_index c k in
  let* x := py_index row 0 in
  let* y := py_index row 1 in
  Ok (x, y).

(** Body of [for i in root]: state is [(coord, list_box)]. *)
Definition read_object (object_name : string)
    (st : option (list (list Z)) * list gt_entry) (i : element)
  : result (option (list (list Z)) * list gt_entry) :=
  let '(coord0, list_box) := st in
  if String.eqb (tag i) "object" then
    let* first := py_index (children i) 0 in
    if text_eqb (text first) object_name then
      let* loc := for_each read_child (children i) (Locals [] coord0) in
      match coord loc with
      | None => Raise UnboundLocalError
      | Some c =>
          let* a := coord_point c 0 in
          let* b := coord_point c 1 in
          let* d := coord_point c 2 in
          let* e := coord_point c 3 in
          let* key := py_index (values loc) (-1) in
          Ok (coord loc, list_box ++ [GtEntry key (Quad a b d e)])
      end
    else Ok st
  else Ok st.

(** [objects_bb(xml_file, object_name)], on the parsed root element. *)
Definition objects_bb (root : element) (object_name : string) : result (list gt_entry) :=
  let* st := for_each (read_object object_name) (children root) (None, []) in
  Ok (snd st).

(** [for i in cards: if len(list(i)[0]) == 1: cards.remove(i)].  The list
    iterator keeps an index into the list being mutated; [fuel] bounds
    the number of iterations. *)
Fixpoint drop_single_suits_from (fuel idx : nat) (cards : list gt_entry)
  : list gt_entry :=
  match fuel with
  | O => cards
  | S fuel' =>
      match nth_error cards idx with
      | None => cards
      | Some i =>
          let cards' :=
            if (String.length (gt_key i) =? 1)%nat then list_remove i cards
            else cards in
          drop_single_suits_from fuel' (S idx) cards'
      end
  end.

Definition drop_single_suits (cards : list gt_entry) : list gt_entry :=
  drop_single_suits_from (length cards) 0 cards.

(** [got_gt_objects(xml_file)]: the list [[cards, money, other]]. *)
Definition got_gt_objects (root : element)
  : result (list gt_entry * list gt_entry * list gt_entry) :=
  let* cards := objects_bb root "cards" in
  let cards := drop_single_suits cards in
  let* money := objects_bb root "money" in
  let* other := objects_bb root "other" in
  Ok (cards, money, other).

End Parse.

(** A parser for the numerals annotation tools write: an optional sign,
    digits, an optional fraction.  Python's [float] accepts more
    (exponents, blanks, inf, nan); those texts are rejected here. *)
Definition digit_of (c : ascii) : option Z :=
  let n := nat_of_ascii c in
  if ((48 <=? n) && (n <=? 57))%nat then Some (Z.of_nat (n - 48)) else None.

Fixpoint all_digits (s : string) : bool :=
  match s with
  | EmptyString => true
  | String c rest =>
      match digit_of c with Some _ => all_digits rest | None => false end
  end.

(** Integer part of an unsigned numeral; [seen] tells whether a digit
    has been read. *)
Fixpoint unsigned_int_part (s : string) (acc : Z) (seen : bool) : option Z :=
  match s with
  | EmptyString => if seen then Some acc else None
  | String c rest =>
      match digit_of c with
      | Some d => unsigned_int_part rest (10 * acc + d) true
      | None =>
          if Ascii.eqb c "."%char then
            if all_digits rest
               && (seen || negb (String.eqb rest EmptyString))
            then Some acc else None
          else None
      end
  end.

Definition decimal_int_of_float_text (t : option string) : result Z :=
  match t with
  | None => Raise TypeError
  | Some (String "-"%char rest) =>
      match unsigned_int_part rest 0 false with
      | Some v => Ok (- v)
      | None => Raise (ValueError "could not convert string to float")
      end
  | Some s =>
      match unsigned_int_part s 0 false with
      | Some v => Ok v
      | None => Raise (ValueError "could not convert string to float")
      end
  end.

(** *** Sample data *)

(** An [object] element of an annotation file: category, polygon and the
    label after [=]. *)
Definition sample_pt (x y : string) : element :=
  Element "pt" None [Element "x" (Some x) []; Element "y" (Some y) []].

Definition sample_object (category label : string) : element :=
  Element "object" None
    [ Element "name" (Some category) [];
      Element "polygon" None
        [ sample_pt "10" "20"; sample_pt "60" "20";
          sample_pt "60" "90"; sample_pt "10" "90" ];
      Element "attributes" (Some ("label=" ++ label)%string) [] ].

(** Two cards that carry a one-character label, one after the other,
    then a well-formed card. *)
Definition sample_annotation : element :=
  Element "annotation" None
    [ sample_object "cards" "A"; sample_object "cards" "K";
      sample_object "cards" "10h"; sample_object "money" "500" ].

Definition sample_quad : quad := Quad (10, 20) (60, 20) (60, 90) (10, 90).

(** A ground-truth group of two entries and predictions for it. *)
Definition sample_group : list gt_entry :=
  [ GtEntry "10h" sample_quad;
    GtEntry "Qs" (Quad (200, 20) (250, 20) (250, 90) (200, 90)) ].

(** Right text, first corner 3 pixels off. *)
Definition sample_hit : prediction :=
  ("10h"%string, Quad (13, 18) (60, 18) (60, 90) (13, 90)).


(** Right text and first corner, third corner hundreds of pixels away
    from every stored point. *)
Definition sample_far_corner : prediction :=
  ("10h"%string, Quad (10, 20) (600, 20) (600, 900) (10, 900)).

End QA.

(** ** Pipeline: decoding recognizer output *)

Module OneGraphPipeline.

(** The fields of the pipeline object that decoding reads; the Keras
    model itself plays no part in it. *)
Record t : Type := Build { blank_label_idx : Z; alphabet : list string }.

(** [__init__(self, model, alphabet)]. *)
Definition init (alphabet : list string) : t :=
  Build (Z.of_nat (length alphabet)) alphabet.

(** [idx not in [self.blank_label_idx, -1]]. *)
Definition kept (self : t) (idx : Z) : bool :=
  negb ((idx =? blank_label_idx self) || (idx =? -1)).

(** [[self.alphabet[idx] for idx in row if idx not in [...]]]. *)
Fixpoint decode_chars (self : t) (row : list Z) : result (list string) :=
  match row with
  | [] => Ok []
  | idx :: rest =>
      if kept self idx then
        let* c := py_index (alphabet self) idx in
        let* cs := decode_chars self rest in
        Ok (c :: cs)
      else decode_chars self rest
  end.

(** One element of the outer comprehension: [''.join([...])]. *)
Definition decode_row (self : t) (row : list Z) : result string :=
  let* cs := decode_chars self row in Ok (String.concat "" cs).

(** [decode_prediction(self, raw_predict)]. *)
Definition decode_prediction (self : t) (raw_predict : list (list Z))
  : result (list string) :=
  map_result (decode_row self) raw_predict.

End OneGraphPipeline.

(** ** Box transform layer *)

Module Boxes.

Local Open Scope Q_scope.

(** A row of an (N, 2) array. *)
Definition point : Type := (Q * Q)%type.

(** A (4, 2) array. *)
Definition box : Type := list point.

Definition line : Type := list (box * option string).

Definition prediction : Type := (string * box)%type.

(** A value passed as [boxes] with a format string that names none of
    the three formats: it may have any of their shapes. *)
Inductive any_boxes : Type :=
| AsBoxes (boxes : list box)
| AsLines (lines : list line)
| AsPredictions (predictions : list prediction).

(** Which of the comparisons of [adjust_boxes] a format string passes,
    in the order the source tries them. *)
Inductive format_kind : Type := KBoxes | KLines | KPredictions | KUnsupported.

Definition format_kind_of (boxes_format : string) : format_kind :=
  if String.eqb boxes_format "boxes" then KBoxes
  else if String.eqb boxes_format "lines" then KLines
  else if String.eqb boxes_format "predictions" then KPredictions
  else KUnsupported.

(** The shape of [boxes] that goes with a format. *)
Definition boxes_of (k : format_kind) : Type :=
  match k with
  | KBoxes => list box
  | KLines => list line
  | KPredictions => list prediction
  | KUnsupported => any_boxes
  end.

(** [np.array(box) * scale]. *)
Definition scale_box (scale : Q) (b : box) : box :=
  map (fun p => (fst p * scale, snd p * scale)) b.

(** [adjust_boxes(boxes, boxes_format, scale)]. *)
Definition adjust_boxes (boxes_format : string)
    (boxes : boxes_of (format_kind_of boxes_format)) (scale : Q)
  : result (boxes_of (format_kind_of boxes_format)) :=
  if Qeq_bool scale 1 then Ok boxes
  else
    match format_kind_of boxes_format as k
          return boxes_of k -> result (boxes_of k) with
    | KBoxes => fun boxes => Ok (map (scale_box scale) boxes)
    | KLines => fun boxes =>
        Ok (map (fun line =>
                   map (fun bc => (scale_box scale (fst bc), snd bc)) line)
                boxes)
    | KPredictions => fun boxes =>
        Ok (map (fun wb => (fst wb, scale_box scale (snd wb))) boxes)
    | KUnsupported => fun _ =>
        Raise (NotImplementedError
                 ("Unsupported boxes format: " ++ boxes_format)%string)
    end boxes.

(** *** Sample data *)

Definition sample_box : box := [(1, 2); (5, 2); (5, 4); (1, 4)].

Definition sample_lines : list line :=
  [[(sample_box, Some "a"%string); (scale_box 2 sample_box, None)]].

End Boxes.

(** ** Images: pad, fit and warpBox *)

Module Images.

Section Pixels.

(** A pixel is a gray level or a vector of channels; the functions
    below never look inside one. *)
Variable pixel : Type.

(** The default fill of [warpBox]: [0], or [(0, 0, 0)] for a colour image. *)
Variable zero : pixel.

(** [.astype('uint8')] on one pixel. *)
Variable uint8 : pixel -> pixel.

(** A NumPy image: [shape[0]], [shape[1]] and the rows. *)
Record image : Type := Image { shape0 : Z; shape1 : Z; rows : list (list pixel) }.

(** [cv2.resize(image, dsize=(width, height))]. *)
Variable cv2_resize : image -> Z -> Z -> result image.

(** Where a slice bound lands in a sequence of length [n]: negative
    bounds count from the end, all bounds are clipped. *)
Definition slice_bound (n i : Z) : Z :=
  if i <? 0 then Z.max 0 (n + i) else Z.min n i.

(** [l[a:b]]. *)
Definition py_slice {A : Type} (l : list A) (a b : Z) : list A :=
  let n := Z.of_nat (length l) in
  let start := slice_bound n a in
  let stop := slice_bound n b in
  firstn (Z.to_nat (stop - start)) (skipn (Z.to_nat start) l).

(** Length of [range(n)[a:b]]. *)
Definition slice_len (n a b : Z) : Z :=
  Z.max 0 (slice_bound n b - slice_bound n a).

(** [image[r0:r1, c0:c1]]. *)
Definition slice2 (im : image) (r0 r1 c0 c1 : Z) : image :=
  Image (slice_len (shape0 im) r0 r1) (slice_len (shape1 im) c0 c1)
        (map (fun row => py_slice row c0 c1) (py_slice (rows im) r0 r1)).

(** [image[:height, :width]]. *)
Definition slice_top_left (im : image) (height width : Z) : image :=
  slice2 im 0 height 0 width.

(** [np.zeros(shape) + cval] for [shape = (height, width, ...)]. *)
Definition zeros_plus (shape : Z * Z) (cval : pixel) : result image :=
  let '(height, width) := shape in
  if (height <? 0) || (width <? 0)
  then Raise (ValueError "negative dimensions are not allowed")
  else Ok (Image height width
                 (repeat (repeat cval (Z.to_nat width)) (Z.to_nat height))).

(** NumPy broadcasting of one axis of length [s] to length [t]. *)
Definition broadcasts (s t : Z) : bool := (s =? t) || (s =? 1).

Definition broadcast {A : Type} (s t : Z) (l : list A) : list A :=
  if s =? t then l
  else match l with
       | x :: _ => repeat x (Z.to_nat t)
       | [] => []
       end.

(** [dst[:len(src)] = src] on one axis, [src] no longer than [dst]. *)
Fixpoint overwrite {A : Type} (f : A -> A -> A) (dst src : list A) : list A :=
  match dst, src with
  | d :: dst', x :: src' => f d x :: overwrite f dst' src'
  | _, _ => dst
  end.

(** [dst[:n0, :n1] = src]: ValueError unless [src] broadcasts to the
    target slice. *)
Definition set_top_left (dst : image) (n0 n1 : Z) (src : image) : result image :=
  let t0 := slice_len (shape0 dst) 0 n0 in
  let t1 := slice_len (shape1 dst) 0 n1 in
  if broadcasts (shape0 src) t0 && broadcasts (shape1 src) t1 then
    let src_rows :=
      broadcast (shape0 src) t0 (map (broadcast (shape1 src) t1) (rows src)) in
    Ok (Image (shape0 dst) (shape1 dst)
              (overwrite (overwrite (fun _ x => x)) (rows dst) src_rows))
  else Raise (ValueError "could not broadcast input array").

(** The [output_shape] of [pad]: [(height, width)], followed for a
    colour image by its channel count, which lives in the pixels here. *)
Definition pad_output_shape (im : image) (width height : Z) : Z * Z :=
  (height, width).

(** [pad(image, width, height, cval)]. *)
Definition pad (im : image) (width height : Z) (cval : pixel) : result image :=
  let output_shape := pad_output_shape im width height in
  if negb (height >=? fst output_shape)
  then Raise (AssertionError "Input height must be less than output height.")
  else if negb (width >=? snd output_shape)
  then Raise (AssertionError "Input width must be less than output width.")
  else
    let* padded := zeros_plus output_shape cval in
    set_top_left padded (shape0 im) (shape1 im) im.

(** The first [if] chain of [fit]: [fitted] when already set, [scale]
    and the sizes to resize to (unbound, here 0, when [fitted] is set). *)
Definition fit_plan (im : image) (width height : Z) (mode : string)
    (x_scale y_scale : Q) : option image * Q * Q * Q :=
  if Qeq_bool x_scale 1 && Qeq_bool y_scale 1 then
    (Some im, 1%Q, 0%Q, 0%Q)
  else if (Qle_bool x_scale y_scale && String.eqb mode "letterbox")
          || (Qle_bool y_scale x_scale && String.eqb mode "crop") then
    (None, (inject_Z width / inject_Z (shape1 im))%Q, inject_Z width,
     ((inject_Z width / inject_Z (shape1 im)) * inject_Z (shape0 im))%Q)
  else
    let scale := (inject_Z height / inject_Z (shape0 im))%Q in
    (None, scale, (scale * inject_Z (shape1 im))%Q, inject_Z height).

(** [fit(image, width, height, cval, mode, return_scale)]; the second
    component is the scale when [return_scale] is set. *)
Definition fit (im : image) (width height : Z) (cval : pixel) (mode : string)
    (return_scale : bool) : result (image * option Q) :=
  if shape1 im =? 0 then Raise ZeroDivisionError
  else
    let x_scale := (inject_Z width / inject_Z (shape1 im))%Q in
    if shape0 im =? 0 then Raise ZeroDivisionError
    else
      let y_scale := (inject_Z height / inject_Z (shape0 im))%Q in
      let '(fitted, scale, resize_width, resize_height) :=
        fit_plan im width height mode x_scale y_scale in
      let* fitted :=
        match fitted with
        | Some f => Ok f
        | None =>
            let resize_width := py_int resize_width in
            let resize_height := py_int resize_height in
            if String.eqb mode "letterbox" then
              let* canvas := zeros_plus (height, width) cval in
              let* im := cv2_resize im resize_width resize_height in
              set_top_left canvas (shape0 im) (shape1 im)
                           (slice_top_left im height width)
            else if String.eqb mode "crop" then
              let* im := cv2_resize im resize_width resize_height in
              Ok (slice_top_left im height width)
            else Raise (NotImplementedError ("Unsupported mode: " ++ mode)%string)
        end in
      Ok (fitted, if return_scale then Some scale else None).

(** [warpBox(image, box, target_height, target_width, margin, cval)].
    The division is the one of Python numbers; on NumPy scalars a zero
    extent yields inf or nan and the call fails later instead. *)
Definition warpBox (im : image) (box : Boxes.box)
    (target_height target_width : Z) (margin : Z) (cval : option pixel)
  : result image :=
  let cval := match cval with None => zero | Some c => c end in
  let* b2 := py_index box 2 in
  let* b0 := py_index box 0 in
  let w := Qabs (fst b2 - fst b0) in
  let h := Qabs (snd b2 - snd b0) in
  if Qeq_bool w 0 || Qeq_bool h 0 then Raise ZeroDivisionError
  else
    let scale := Qmin (inject_Z target_width / w) (inject_Z target_height / h) in
    let crop :=
      slice2 im
             (Z.min (py_int (snd b0)) (py_int (snd b2)))
             (Z.max (py_int (snd b0)) (py_int (snd b2)))
             (Z.min (py_int (fst b0)) (py_int (fst b2)))
             (Z.max (py_int (fst b0)) (py_int (fst b2))) in
    let* crop := cv2_resize crop (py_int (w * scale)) (py_int (h * scale)) in
    let target_shape := (target_height, target_width) in
    let* full := zeros_plus target_shape (uint8 cval) in
    set_top_left full (shape0 crop) (shape1 crop)
                 (Image (shape0 crop) (shape1 crop)
                        (map (map uint8) (rows crop))).

End Pixels.

Arguments Image {pixel} shape0 shape1 rows.
Arguments shape0 {pixel} i.
Arguments shape1 {pixel} i.
Arguments rows {pixel} i.

(** *** Sample data: gray images *)

(** A nearest-neighbour resize, for running the model. *)
Definition nearest_resize (im : image Z) (width height : Z) : result (image Z) :=
  if (width <=? 0) || (height <=? 0) || (shape0 im <=? 0) || (shape1 im <=? 0)
  then Raise cv2_error
  else
    Ok (Image height width
          (map (fun r =>
                  map (fun c =>
                         nth (Z.to_nat (Z.of_nat c * shape1 im / width))
                             (nth (Z.to_nat (Z.of_nat r * shape0 im / height))
                                  (rows im) [])
                             0)
                      (seq 0 (Z.to_nat width)))
               (seq 0 (Z.to_nat height)))).

Definition sample_image : image Z :=
  Image 2 3 [[10; 20; 30]; [40; 50; 60]].

End Images.

(** ** Geometry primitives and line assembly *)

Module Lines.

Import Boxes.
Local Open Scope Q_scope.

(** [a[idx]] for an index array: the rows of [a] in the order of [idx]. *)
Definition rows_at {A : Type} (a : list A) (idx : list nat) : result (list A) :=
  map_result (fun i => match nth_error a i with
                       | Some x => Ok x
                       | None => Raise IndexError
                       end) idx.

(** Squared Euclidean distance.  [cdist] returns its square root, which
    [get_rotated_box] only feeds to [argsort]; the squares order alike. *)
Definition sqdist (p q : point) : Q :=
  (fst p - fst q) * (fst p - fst q) + (snd p - snd q) * (snd p - snd q).

(** [np.diff(l)]. *)
Fixpoint diff (l : list Q) : list Q :=
  match l with
  | a :: (b :: _) as rest => (b - a) :: diff rest
  | _ => []
  end.

(** [l.sum()]. *)
Definition sum (l : list Q) : Q := fold_right Qplus 0 l.

(** [box.mean(axis=0)]. *)
Definition mean (b : box) : point :=
  let n := inject_Z (Z.of_nat (length b)) in
  (sum (map fst b) / n, sum (map snd b) / n).

Section Collaborators.

(** [MultiPoint(points).minimum_rotated_rectangle.exterior.xy] zipped and
    without its closing point; [None] where the rectangle degenerates to
    a geometry without [exterior] (AttributeError). *)
Variable minimum_rotated_rectangle : list point -> option (list point).

(** [np.argsort] on a vector. *)
Variable argsort : list Q -> list nat.

(** [get_rotated_box(points)[0]]: the four ordered vertices.  The second
    component, the arctangent of a float quotient, is left out. *)
Definition get_rotated_box (points : list point) : result box :=
  let pts := match minimum_rotated_rectangle points with
             | Some r => r
             | None => points
             end in
  let* xSorted := rows_at pts (argsort (map fst pts)) in
  let leftMost := firstn 2 xSorted in
  let rightMost := skipn 2 xSorted in
  let* leftMost := rows_at leftMost (argsort (map snd leftMost)) in
  match leftMost with
  | [tl; bl] =>
      let D := map (sqdist tl) rightMost in
      let* ordered := rows_at rightMost (rev (argsort D)) in
      match ordered with
      | [br; tr] => Ok [tl; tr; br; bl]
      | _ => Raise (ValueError "wrong number of values to unpack")
      end
  | _ => Raise (ValueError "wrong number of values to unpack")
  end.

(** The first comprehension of [fix_line]. *)
Definition normalize_line (l : line) : result line :=
  map_result (fun bc => let* b := get_rotated_box (fst bc) in Ok (b, snd bc)) l.

(** The decision of [fix_line] on an already normalised line. *)
Definition order_line (l : line) : result (line * string) :=
  match l with
  | [] => Raise IndexError
  | _ =>
      let centers := map (fun bc => mean (fst bc)) l in
      let sortedx := argsort (map fst centers) in
      let sortedy := argsort (map snd centers) in
      let* by_y := rows_at centers sortedy in
      let* by_x := rows_at centers sortedx in
      if negb (Qle_bool (sum (diff (map snd by_y))) (sum (diff (map fst by_x))))
      then let* r := rows_at l sortedy in Ok (r, "vertical"%string)
      else let* r := rows_at l sortedx in Ok (r, "horizontal"%string)
  end.

(** [fix_line(line)]. *)
Definition fix_line (l : line) : result (line * string) :=
  let* l := normalize_line l in
  order_line l.

End Collaborators.

(** What [np.argsort] guarantees whatever its algorithm: a permutation
    of the positions along which the keys do not decrease. *)
Definition key (keys : list Q) (i : nat) : Q := nth i keys 0.

Definition sorts (argsort : list Q -> list nat) : Prop :=
  forall keys,
    Permutation (argsort keys) (seq 0 (length keys))
    /\ StronglySorted (fun i j => key keys i <= key keys j) (argsort keys).



(** The centroids [fix_line] computes on a normalised line. *)
Definition centers (l : line) : list point := map (fun bc => mean (fst bc)) l.

(** *** Instances of the collaborators, for running the model *)

(** A stable insertion sort of positions by key. *)
Fixpoint insert_by (keys : list Q) (i : nat) (l : list nat) : list nat :=
  match l with
  | [] => [i]
  | j :: rest =>
      if Qle_bool (key keys i) (key keys j) then i :: l
      else j :: insert_by keys i rest
  end.

Definition insertion_argsort (keys : list Q) : list nat :=
  fold_right (insert_by keys) [] (seq 0 (length keys)).

(** The rectangle of an axis-parallel box: its bounding rectangle,
    counter-clockwise from the lower left as shapely lists it. *)
Definition bounding_rectangle (points : list point) : option (list point) :=
  match points with
  | [] => None
  | p :: rest =>
      let x0 := fold_right Qmin (fst p) (map fst rest) in
      let x1 := fold_right Qmax (fst p) (map fst rest) in
      let y0 := fold_right Qmin (snd p) (map snd rest) in
      let y1 := fold_right Qmax (snd p) (map snd rest) in
      if Qeq_bool x0 x1 || Qeq_bool y0 y1 then None
      else Some [(x0, y0); (x1, y0); (x1, y1); (x0, y1)]
  end.


(** *** Sample data *)

(** The 4 by 6 rectangle with its top left corner at [(x, y)], listed
    from the bottom right. *)
Definition sample_rectangle (x y : Q) : box :=
  [(x + 4, y + 6); (x, y + 6); (x, y); (x + 4, y)].


Definition sample_column : line :=
  [ (sample_rectangle 5 0, Some "w"%string); (sample_rectangle 5 10, Some "o"%string);
    (sample_rectangle 5 20, Some "r"%string); (sample_rectangle 5 30, Some "d"%string) ].

Definition normalized (l : line) : line :=
  match normalize_line bounding_rectangle insertion_argsort l with
  | Ok nl => nl
  | Raise _ => []
  end.


Definition sample_column_normalized : line :=
  Eval vm_compute in normalized sample_column.

End Lines.

(** ** QA scoring: the per-image report *)

Module Report.

Import QA.

(** [len(list(i)[0]) == 1], the test of [got_gt_objects]. *)
Definition single_suit (e : gt_entry) : bool :=
  (String.length (gt_key e) =? 1)%nat.

(** No two neighbours of the list both carry a one-character label. *)
Fixpoint no_adjacent_single_suits (cards : list gt_entry) : bool :=
  match cards with
  | a :: (b :: _) as rest =>
      negb (single_suit a && single_suit b) && no_adjacent_single_suits rest
  | _ => true
  end.

(** The polygon [objects_bb] stores for an object, read from the
    current value of [coord]. *)
Definition quad_of_coord (c : list (list Z)) : result quad :=
  let* a := coord_point c 0 in
  let* b := coord_point c 1 in
  let* d := coord_point c 2 in
  let* e := coord_point c 3 in
  Ok (Quad a b d e).

(** An [object] element that has no polygon: category, other children
    that are neither attributes nor polygon, and the attributes last. *)
Definition object_without_polygon (category : string) (others : list element)
    (attributes_text : string) : element :=
  Element "object" None
    (Element "name" (Some category) [] :: others
     ++ [Element "attributes" (Some attributes_text) []]).

(** What [for i in root] keeps true of [(coord, list_box)]: [coord] is
    unbound as long as the list is empty, and afterwards it holds the
    polygon of the last entry. *)
Definition coord_follows (st : option (list (list Z)) * list gt_entry) : Prop :=
  match rev (snd st) with
  | [] => fst st = None
  | last :: _ => exists c, fst st = Some c /\ quad_of_coord c = Ok (gt_coord last)
  end.

Definition plain_tag (el : element) : bool :=
  negb (String.eqb (tag el) "attributes") && negb (String.eqb (tag el) "polygon").

Section Parse.

Variable int_of_float_text : option string -> result Z.

(** [count_precision(xml_file, predict_file)]: the tuple is built left
    to right, so the first failing [precision] decides the exception. *)
Definition count_precision (root : element) (predict_file : list prediction)
  : result (Q * Q * Q) :=
  let* gt_obj := got_gt_objects int_of_float_text root in
  let '(cards, money, other) := gt_obj in
  let* c := precision cards predict_file in
  let* m := precision money predict_file in
  let* o := precision other predict_file in
  Ok (c, m, o).

End Parse.

(** An annotation with one object of each category. *)
Definition sample_full_annotation : element :=
  Element "annotation" None
    [ sample_object "cards" "10h"; sample_object "money" "500";
      sample_object "other" "dealer" ].

End Report.

(** ** Pipeline: scores and prediction groups *)

Module Scores.

Import OneGraphPipeline.

(** An index [decode_prediction] can digest: skipped, or a position of
    the alphabet counted from either end. *)
Definition decodable (alphabet : list string) (idx : Z) : bool :=
  ((- Z.of_nat (length alphabet) <=? idx) && (idx <=? Z.of_nat (length alphabet)))
  || (idx =? -1).

Local Open Scope Q_scope.

(** [np.argmax] on a vector: the position of the first maximum. *)
Fixpoint argmax_from (best_i : nat) (best : Q) (i : nat) (l : list Q) : nat :=
  match l with
  | [] => best_i
  | x :: rest =>
      if Qle_bool x best then argmax_from best_i best (S i) rest
      else argmax_from i x (S i) rest
  end.

Definition np_argmax (l : list Q) : result nat :=
  match l with
  | [] => Raise (ValueError "attempt to get argmax of an empty sequence")
  | x :: rest => Ok (argmax_from 0 x 1 rest)
  end.

(** The inner loops of [_convert_to_chargroup] for one box:
    [probability = 1; for j in box: probability *= j[argmax(j)]]. *)
Definition box_probability (box : list (list Q)) : result Q :=
  for_each (fun probability j =>
              let* index := np_argmax j in
              let* p := py_index j (Z.of_nat index) in
              Ok (probability * p))
           box 1.

(** [_convert_to_chargroup(self, prob_score_batch)]. *)
Definition _convert_to_chargroup (prob_score_batch : list (list (list (list Q))))
  : result (list (list Q)) :=
  map_result (fun probability_array => map_result box_probability probability_array)
             prob_score_batch.

(** A step of the recognizer: a non-empty vector of probabilities. *)
Definition probability_vector (j : list Q) : Prop :=
  j <> [] /\ Forall (fun p => 0 <= p <= 1) j.

End Scores.

(** ** Box transform layer: resize_image and shapes *)

Module Coordinates.

Import Boxes.
Local Open Scope Q_scope.




End Coordinates.

Module ImageTools.

Import Images.

Section Pixels.

Variable pixel : Type.

Variable cv2_resize : image pixel -> Z -> Z -> result (image pixel).

(** The rows of an image agree with its shape. *)
Definition well_formed (im : image pixel) : Prop :=
  Z.of_nat (length (rows im)) = shape0 im
  /\ Forall (fun row => Z.of_nat (length row) = shape1 im) (rows im).

(** [max(image.shape)]; [channels] is [image.shape[2]] of a colour image. *)
Definition max_shape (im : image pixel) (channels : option Z) : Z :=
  match channels with
  | None => Z.max (shape0 im) (shape1 im)
  | Some c => Z.max (Z.max (shape0 im) (shape1 im)) c
  end.

(** The scale [resize_image] settles on. *)
Definition resize_scale (im : image pixel) (channels : option Z)
    (max_scale max_size : Q) : result Q :=
  let m := max_shape im channels in
  if negb (Qle_bool (inject_Z m * max_scale) max_size) then
    if m =? 0 then Raise ZeroDivisionError
    else Ok (max_size / inject_Z m)%Q
  else Ok max_scale.

(** [resize_image(image, max_scale, max_size)]. *)
Definition resize_image (im : image pixel) (channels : option Z)
    (max_scale max_size : Q) : result (image pixel * Q) :=
  let* scale := resize_scale im channels max_scale max_size in
  let* resized :=
    cv2_resize im (py_int (inject_Z (shape1 im) * scale))
                  (py_int (inject_Z (shape0 im) * scale)) in
  Ok (resized, scale).

End Pixels.

End ImageTools.

(** *** Sample runs of the image tools *)

Module ImageSamples.

Import Images.



End ImageSamples.

(** ** Line assembly: combine_line *)

Module Assembly.

Import Boxes Lines.
Local Open Scope Q_scope.

(** [np.argmin] on a vector: the position of the first minimum. *)
Fixpoint argmin_from (best_i : nat) (best : Q) (i : nat) (l : list Q) : nat :=
  match l with
  | [] => best_i
  | x :: rest =>
      if Qle_bool best x then argmin_from best_i best (S i) rest
      else argmin_from i x (S i) rest
  end.

Definition np_argmin (l : list Q) : result nat :=
  match l with
  | [] => Raise (ValueError "attempt to get argmin of an empty sequence")
  | x :: rest => Ok (argmin_from 0 x 1 rest)
  end.

(** [np.roll(box, -k, 0)] for [0 <= k < len(box)]: a rotation to the left. *)
Definition roll_left {A : Type} (k : nat) (l : list A) : list A :=
  skipn k l ++ firstn k l.

(** The text of [combine_line]: the characters in order, [None] as ['']. *)
Definition line_text (l : line) : string :=
  String.concat ""
    (map (fun bc => match snd bc with Some c => c | None => ""%string end) l).

(** The arrays [combine_line] concatenates: the first two corners of
    every box, then corners 3 and 2 of every box from the last to the
    first. *)
Definition line_cloud (l : line) : result (list point) :=
  let heads := map (fun bc => firstn 2 (fst bc)) l in
  let* tails :=
    map_result (fun bc =>
                  let* c3 := py_index (fst bc) 3 in
                  let* c2 := py_index (fst bc) 2 in
                  Ok [c3; c2])
               (rev l) in
  match heads ++ tails with
  | [] => Raise (ValueError "need at least one array to concatenate")
  | arrays => Ok (concat arrays)
  end.

Section Cv2.

(** [cv2.boxPoints(cv2.minAreaRect(box))]. *)
Variable min_area_rect_points : list point -> list point.

(** [combine_line(line)].  The norm of [box - first_point] is replaced
    by its square, which has its minimum at the same position. *)
Definition combine_line (l : line) : result (box * string) :=
  let text := line_text l in
  let* cloud := line_cloud l in
  let* first_point := py_index cloud 0 in
  let rectangle := min_area_rect_points cloud in
  let* k := np_argmin (map (fun p => sqdist p first_point) rectangle) in
  Ok (roll_left k rectangle, text).

End Cv2.

End Assembly.

(** *** Sample runs of the geometry *)

Module LineSamples.

Import Boxes Lines.



End LineSamples.

(** *** The spread of a coordinate *)

Module Spread.

Local Open Scope Q_scope.

(** Largest minus smallest value of a vector. *)
Definition extent (l : list Q) : Q :=
  match l with
  | [] => 0
  | a :: rest => fold_right Qmax a rest - fold_right Qmin a rest
  end.

End Spread.

(** * Properties *)

(** ** Rounding *)





(** ** QA scoring: precision *)

Section Precision.

Import QA.

Lemma compare_difference_abs (a b : Z) :
  compare_difference a b = (Z.abs (a - b) <=? 10).
Proof.
  unfold compare_difference. cbv zeta. rewrite Z.geb_leb.
  destruct (Z.max a b <=? Z.min a b + 10) eqn:E; symmetry.
  - apply Z.leb_le in E. apply Z.leb_le. lia.
  - apply Z.leb_gt in E. apply Z.leb_gt. lia.
Qed.

Lemma precision_inner_matches (e : gt_entry) (c : Z) (p : prediction) :
  precision_inner (gt_key e) (pt0 (gt_coord e)) (pt1 (gt_coord e)) c p
  = c + (if matches e p then 1 else 0).
Proof.
  unfold precision_inner, matches. cbv zeta.
  rewrite !compare_difference_abs.
  destruct (String.eqb (fst p) (gt_key e)); simpl; [ | lia ].
  destruct (_ && _); lia.
Qed.

Lemma precision_inner_fold (e : gt_entry) (predict : list prediction) (c : Z) :
  fold_left (precision_inner (gt_key e) (pt0 (gt_coord e)) (pt1 (gt_coord e)))
            predict c
  = c + Z.of_nat (length (filter (matches e) predict)).
Proof.
  revert c. induction predict as [ | p predict IH ]; intros c; simpl.
  - lia.
  - rewrite IH, precision_inner_matches.
    destruct (matches e p); simpl length; lia.
Qed.

Lemma precision_outer_fold (predict : list prediction) (gt_object : list gt_entry)
    (c : Z) :
  fold_left (precision_outer predict) gt_object c
  = c + matching_pairs gt_object predict.
Proof.
  revert c. induction gt_object as [ | e gt_object IH ]; intros c; simpl.
  - lia.
  - rewrite IH. unfold precision_outer. cbv zeta.
    rewrite precision_inner_fold. lia.
Qed.

Lemma matching_pairs_bounds (gt_object : list gt_entry) (predict : list prediction) :
  0 <= matching_pairs gt_object predict
    <= Z.of_nat (length gt_object) * Z.of_nat (length predict).
Proof.
  induction gt_object as [ | e gt_object IH ]; simpl matching_pairs.
  - simpl. lia.
  - pose proof (filter_length_le (matches e) predict).
    change (length (e :: gt_object)) with (S (length gt_object)). lia.
Qed.





End Precision.

Section PrecisionRuns.

Import QA.


(** The run of section 8 of the specification: two entries, one
    prediction that matches one of them. *)
Example precision_one_of_two :
  precision sample_group [sample_hit] = Ok (1 # 2).
Proof. reflexivity. Qed.


(** C2 as stated fails: on the empty group the exception is the
    interpreter's ZeroDivisionError, not one raised by a guard. *)
Lemma precision_empty_group_counterexample :
  precision [] [sample_hit] = Raise ZeroDivisionError
  /\ guard_error ZeroDivisionError = false.
Proof. split; reflexivity. Qed.

(** C2, as the code has it: on an empty ground-truth group [precision]
    divides by [len(gt_object) = 0] and raises ZeroDivisionError,
    whatever the predictions; no value (so no NaN) is returned, and this
    is the only way [precision] raises. *)
Theorem precision_raises_iff_empty_group
    (gt_object : list gt_entry) (predict : list prediction) (e : exn) :
  precision gt_object predict = Raise e
  <-> gt_object = [] /\ e = ZeroDivisionError.
Proof.
  unfold precision. cbv zeta. split.
  - destruct (Z.of_nat (length gt_object) =? 0) eqn:E; [ | discriminate ].
    apply Z.eqb_eq in E. intros H. injection H as <-.
    destruct gt_object; [ split; reflexivity | simpl length in E; lia ].
  - intros [-> ->]. reflexivity.
Qed.

Lemma precision_raises_iff_empty_group_witness :
  precision [] [sample_hit; sample_far_corner] = Raise ZeroDivisionError.
Proof.
  apply (proj2 (precision_raises_iff_empty_group
                  [] [sample_hit; sample_far_corner] ZeroDivisionError)).
  split; reflexivity.
Defined.

End PrecisionRuns.

(** ** QA scoring: reading annotation files *)

Section Annotations.

Import QA.

Lemma list_remove_length (x : gt_entry) (l : list gt_entry) :
  (length (list_remove x l) <= length l)%nat.
Proof.
  induction l as [ | y l IH ]; simpl.
  - lia.
  - destruct (gt_entry_eqb y x); simpl; lia.
Qed.

(** The loop over [cards] ends within [len(cards)] steps: any larger
    bound on the number of iterations gives the same list. *)
Lemma drop_single_suits_fuel (f1 f2 idx : nat) (cards : list gt_entry) :
  (length cards - idx <= f1)%nat ->
  (length cards - idx <= f2)%nat ->
  drop_single_suits_from f1 idx cards = drop_single_suits_from f2 idx cards.
Proof.
  revert f2 idx cards.
  induction f1 as [ | f1 IH ]; intros f2 idx cards H1 H2.
  - assert (Hnone : nth_error cards idx = None) by (apply nth_error_None; lia).
    destruct f2; simpl; [ reflexivity | now rewrite Hnone ].
  - destruct f2 as [ | f2 ].
    + assert (Hnone : nth_error cards idx = None) by (apply nth_error_None; lia).
      simpl. now rewrite Hnone.
    + simpl. destruct (nth_error cards idx) as [ i | ] eqn:Hi; [ | reflexivity ].
      assert (Hlt : (idx < length cards)%nat).
      { apply nth_error_Some. congruence. }
      pose proof (list_remove_length i cards).
      apply IH; destruct (String.length (gt_key i) =? 1)%nat; lia.
Qed.

Lemma drop_single_suits_enough_fuel (k : nat) (cards : list gt_entry) :
  drop_single_suits_from (length cards + k) 0 cards = drop_single_suits cards.
Proof. unfold drop_single_suits. apply drop_single_suits_fuel; lia. Qed.

(** C4 fails on the code: removing from [cards] while iterating over it
    skips the element that follows each removed one.  In
    [sample_annotation] the card labelled K follows the card labelled A
    and is returned in the cards group. *)
Theorem got_gt_objects_keeps_single_suit :
  got_gt_objects decimal_int_of_float_text sample_annotation
  = Ok ([GtEntry "K" sample_quad; GtEntry "10h" sample_quad],
        [GtEntry "500" sample_quad], [])
  /\ objects_bb decimal_int_of_float_text sample_annotation "cards"
     = Ok [GtEntry "A" sample_quad; GtEntry "K" sample_quad;
           GtEntry "10h" sample_quad]
  /\ String.length (gt_key (GtEntry "K" sample_quad)) = 1%nat.
Proof. repeat split; reflexivity. Qed.

End Annotations.

(** ** Decoding recognizer output *)

Section Decoding.

Import OneGraphPipeline.

Lemma py_index_in_range {A : Type} (l : list A) (i : Z) (d : A) :
  0 <= i < Z.of_nat (length l) ->
  py_index l i = Ok (nth (Z.to_nat i) l d).
Proof.
  intros Hi. unfold py_index. cbv zeta.
  destruct (i <? 0) eqn:Hneg; [ apply Z.ltb_lt in Hneg; lia | ].
  destruct (0 <=? i) eqn:H0; [ | apply Z.leb_gt in H0; lia ].
  destruct (i <? Z.of_nat (length l)) eqn:H1; [ | apply Z.ltb_ge in H1; lia ].
  simpl. destruct (nth_error l (Z.to_nat i)) as [ a | ] eqn:E.
  - now rewrite (nth_error_nth _ _ d E).
  - apply nth_error_None in E. lia.
Qed.



Lemma map_result_app {A B : Type} (f : A -> result B) (l1 l2 : list A) :
  map_result f (l1 ++ l2)
  = (let* a := map_result f l1 in let* b := map_result f l2 in Ok (a ++ b)).
Proof.
  induction l1 as [ | x l1 IH ]; simpl.
  - destruct (map_result f l2); reflexivity.
  - destruct (f x) as [ y | e ]; simpl; [ | reflexivity ].
    rewrite IH. destruct (map_result f l1) as [ a | e ]; simpl; [ | reflexivity ].
    destruct (map_result f l2); reflexivity.
Qed.



(** A run: blanks (3) and -1 vanish, the other indices spell the text. *)
Example decode_prediction_run :
  decode_prediction (init ["a"; "b"; "c"]%string) [[2; 3; 0; -1; 1]; [3; -1]]
  = Ok ["cab"; ""]%string.
Proof. reflexivity. Qed.

End Decoding.

(** ** Box transform layer *)

Section Transforms.

Import Boxes Images.

Lemma format_kind_of_unsupported (boxes_format : string) :
  boxes_format <> "boxes"%string ->
  boxes_format <> "lines"%string ->
  boxes_format <> "predictions"%string ->
  format_kind_of boxes_format = KUnsupported.
Proof.
  intros H1 H2 H3. unfold format_kind_of.
  apply String.eqb_neq in H1, H2, H3. now rewrite H1, H2, H3.
Qed.

(** C7: called with a scale equal to 1, [adjust_boxes] returns the
    value it was given, for the formats boxes, lines and predictions (and
    for any other format string). *)
Theorem adjust_boxes_identity_at_scale_one
    (boxes_format : string) (boxes : boxes_of (format_kind_of boxes_format))
    (scale : Q) :
  (scale == 1)%Q ->
  adjust_boxes boxes_format boxes scale = Ok boxes.
Proof.
  intros Hs. unfold adjust_boxes.
  apply Qeq_bool_iff in Hs. now rewrite Hs.
Qed.

Lemma adjust_boxes_identity_at_scale_one_witness :
  (2 # 2 == 1)%Q
  /\ adjust_boxes "lines" sample_lines (2 # 2) = Ok sample_lines.
Proof.
  split; [ reflexivity | ].
  apply (adjust_boxes_identity_at_scale_one "lines" sample_lines (2 # 2)).
  reflexivity.
Defined.

(** At another scale every coordinate is multiplied. *)
Example adjust_boxes_doubles :
  adjust_boxes "boxes" [sample_box] 2
  = Ok [[(1 * 2, 2 * 2); (5 * 2, 2 * 2); (5 * 2, 4 * 2); (1 * 2, 4 * 2)]%Q].
Proof. reflexivity. Qed.

(** C3, as the code has it: a format string outside boxes, lines and
    predictions makes [adjust_boxes] raise "Unsupported boxes format:
    <format>" when the scale differs from 1, and a mode outside
    letterbox and crop makes [fit] raise "Unsupported mode: <mode>" on
    an image with rows and columns unless both axis scales equal 1.  At
    scale 1, or with both axis scales 1, the input comes back and the
    format or mode is never looked at. *)
Theorem unsupported_format_or_mode_raises
    (boxes_format mode : string)
    (boxes : boxes_of (format_kind_of boxes_format)) (scale : Q)
    (pixel : Type) (cv2_resize : image pixel -> Z -> Z -> result (image pixel))
    (im : image pixel) (width height : Z) (cval : pixel) (return_scale : bool) :
  boxes_format <> "boxes"%string ->
  boxes_format <> "lines"%string ->
  boxes_format <> "predictions"%string ->
  mode <> "letterbox"%string ->
  mode <> "crop"%string ->
  shape0 im <> 0 ->
  shape1 im <> 0 ->
  adjust_boxes boxes_format boxes scale
  = (if Qeq_bool scale 1 then Ok boxes
     else Raise (NotImplementedError
                   ("Unsupported boxes format: " ++ boxes_format)%string))
  /\ fit pixel cv2_resize im width height cval mode return_scale
     = (if Qeq_bool (inject_Z width / inject_Z (shape1 im)) 1
           && Qeq_bool (inject_Z height / inject_Z (shape0 im)) 1
        then Ok (im, if return_scale then Some 1%Q else None)
        else Raise (NotImplementedError ("Unsupported mode: " ++ mode)%string)).
Proof.
  intros Hb Hl Hp Hlb Hcr Hs0 Hs1. split.
  - unfold adjust_boxes. destruct (Qeq_bool scale 1); [ reflexivity | ].
    pose proof (format_kind_of_unsupported boxes_format Hb Hl Hp) as Hk.
    revert boxes. rewrite Hk. reflexivity.
  - unfold fit, fit_plan.
    apply Z.eqb_neq in Hs0, Hs1. rewrite Hs0, Hs1.
    apply String.eqb_neq in Hlb, Hcr. rewrite Hlb, Hcr.
    destruct (Qeq_bool (inject_Z width / inject_Z (shape1 im)) 1
              && Qeq_bool (inject_Z height / inject_Z (shape0 im)) 1).
    + reflexivity.
    + rewrite !andb_false_r. reflexivity.
Qed.

Lemma unsupported_format_or_mode_raises_witness :
  "polygons"%string <> "boxes"%string
  /\ "polygons"%string <> "lines"%string
  /\ "polygons"%string <> "predictions"%string
  /\ "stretch"%string <> "letterbox"%string
  /\ "stretch"%string <> "crop"%string
  /\ shape0 sample_image <> 0
  /\ shape1 sample_image <> 0
  /\ adjust_boxes "polygons" (AsBoxes [sample_box]) 2
     = Raise (NotImplementedError "Unsupported boxes format: polygons")
  /\ fit Z nearest_resize sample_image 6 4 255 "stretch" true
     = Raise (NotImplementedError "Unsupported mode: stretch").
Proof.
  assert (H1 : "polygons"%string <> "boxes"%string) by discriminate.
  assert (H2 : "polygons"%string <> "lines"%string) by discriminate.
  assert (H3 : "polygons"%string <> "predictions"%string) by discriminate.
  assert (H4 : "stretch"%string <> "letterbox"%string) by discriminate.
  assert (H5 : "stretch"%string <> "crop"%string) by discriminate.
  assert (H6 : shape0 sample_image <> 0) by discriminate.
  assert (H7 : shape1 sample_image <> 0) by discriminate.
  destruct (unsupported_format_or_mode_raises
              "polygons" "stretch" (AsBoxes [sample_box]) 2
              Z nearest_resize sample_image 6 4 255 true
              H1 H2 H3 H4 H5 H6 H7) as [Ha Hf].
  do 7 (split; [ assumption | ]).
  split; [ exact Ha | exact Hf ].
Defined.

(** C3 as stated fails at scale 1 and at axis scales 1: an unknown
    format, or an unknown mode, goes through without any error. *)
Lemma unsupported_format_or_mode_counterexample :
  format_kind_of "polygons" = KUnsupported
  /\ adjust_boxes "polygons" (AsBoxes [sample_box]) 1 = Ok (AsBoxes [sample_box])
  /\ "stretch"%string <> "letterbox"%string
  /\ "stretch"%string <> "crop"%string
  /\ fit Z nearest_resize sample_image 3 2 255 "stretch" false
     = Ok (sample_image, None).
Proof.
  split; [ reflexivity | split; [ reflexivity | ] ].
  split; [ discriminate | split; [ discriminate | reflexivity ] ].
Qed.

(** C9: [warpBox] never reads [margin]; two calls that differ in it
    alone return the same image or raise the same exception. *)
Theorem warpBox_ignores_margin
    (pixel : Type) (zero : pixel) (uint8 : pixel -> pixel)
    (cv2_resize : image pixel -> Z -> Z -> result (image pixel))
    (im : image pixel) (box : Boxes.box) (target_height target_width : Z)
    (margin1 margin2 : Z) (cval : option pixel) :
  warpBox pixel zero uint8 cv2_resize im box target_height target_width margin1 cval
  = warpBox pixel zero uint8 cv2_resize im box target_height target_width margin2 cval.
Proof. reflexivity. Qed.

(** A run of [warpBox]: the crop between the first and the third corner,
    resized and pasted in the top left of the canvas. *)
Example warpBox_run :
  warpBox Z 0 (fun v => v mod 256) nearest_resize sample_image
          [(1, 0); (3, 0); (3, 2); (1, 2)]%Q 2 4 7 None
  = Ok (Image 2 4 [[20; 30; 0; 0]; [50; 60; 0; 0]]).
Proof. reflexivity. Qed.

Lemma set_top_left_not_assertion
    (pixel : Type) (dst src : image pixel) (n0 n1 : Z) (msg : string) :
  set_top_left pixel dst n0 n1 src <> Raise (AssertionError msg).
Proof.
  unfold set_top_left. cbv zeta. destruct (_ && _); discriminate.
Qed.

(** C10: both assertions of [pad] compare a target dimension with the
    component of [output_shape] that was built from it, so they hold for
    every image and every target size, and [pad] never raises an
    AssertionError: neither of its two messages nor any other. *)
Theorem pad_assertions_never_fail
    (pixel : Type) (im : image pixel) (width height : Z) (cval : pixel)
    (msg : string) :
  (height >=? fst (pad_output_shape pixel im width height)) = true
  /\ (width >=? snd (pad_output_shape pixel im width height)) = true
  /\ pad pixel im width height cval <> Raise (AssertionError msg).
Proof.
  assert (Hh : (height >=? height) = true) by (rewrite Z.geb_leb; apply Z.leb_refl).
  assert (Hw : (width >=? width) = true) by (rewrite Z.geb_leb; apply Z.leb_refl).
  split; [ exact Hh | split; [ exact Hw | ] ].
  unfold pad, pad_output_shape. cbv zeta. simpl fst. simpl snd.
  rewrite Hh, Hw. simpl negb. cbv iota.
  unfold zeros_plus.
  destruct ((height <? 0) || (width <? 0)); simpl bind; [ discriminate | ].
  apply set_top_left_not_assertion.
Qed.

(** An image larger than the target is rejected by the assignment into
    the canvas, with NumPy's ValueError. *)
Example pad_oversize_image :
  pad Z sample_image 2 1 255 = Raise (ValueError "could not broadcast input array")
  /\ pad Z sample_image 4 3 255
     = Ok (Image 3 4 [[10; 20; 30; 255]; [40; 50; 60; 255]; [255; 255; 255; 255]]).
Proof. split; reflexivity. Qed.

End Transforms.

(** ** Line assembly *)

Section LineAssembly.

Import Boxes Lines.
Local Open Scope Q_scope.



Lemma strongly_sorted_weaken {A : Type} (R R' : A -> A -> Prop) (l : list A) :
  (forall x y, In x l -> In y l -> R x y -> R' x y) ->
  StronglySorted R l -> StronglySorted R' l.
Proof.
  induction l as [ | a l IH ]; intros H S; inversion S as [ | ? ? S' F ]; subst;
    constructor.
  - apply IH; auto. intros x y Hx Hy. apply H; simpl; auto.
  - rewrite Forall_forall in *. intros y Hy. apply H; simpl; auto.
Qed.




Lemma argsort_in_range (argsort : list Q -> list nat) (keys : list Q) :
  sorts argsort ->
  Forall (fun i => (i < length keys)%nat) (argsort keys).
Proof.
  intros Hs. destruct (Hs keys) as [P _].
  apply Forall_forall. intros i Hi.
  apply (Permutation_in _ P), in_seq in Hi. lia.
Qed.

Lemma rows_at_seq_app {A : Type} (pre a : list A) :
  rows_at (pre ++ a) (seq (length pre) (length a)) = Ok a.
Proof.
  revert pre. induction a as [ | x a IH ]; intros pre.
  - reflexivity.
  - specialize (IH (pre ++ [x])).
    rewrite <- app_assoc, length_app, Nat.add_comm in IH. simpl in IH.
    unfold rows_at in *. simpl.
    rewrite nth_error_app2, Nat.sub_diag by lia. simpl.
    rewrite IH. reflexivity.
Qed.

Lemma rows_at_seq {A : Type} (a : list A) : rows_at a (seq 0 (length a)) = Ok a.
Proof. exact (rows_at_seq_app [] a). Qed.







Lemma order_line_unfold (argsort : list Q -> list nat) (l : line) :
  l <> [] ->
  order_line argsort l
  = (let* by_y := rows_at (centers l) (argsort (map snd (centers l))) in
     let* by_x := rows_at (centers l) (argsort (map fst (centers l))) in
     if negb (Qle_bool (sum (diff (map snd by_y))) (sum (diff (map fst by_x))))
     then let* r := rows_at l (argsort (map snd (centers l))) in
          Ok (r, "vertical"%string)
     else let* r := rows_at l (argsort (map fst (centers l))) in
          Ok (r, "horizontal"%string)).
Proof. destruct l; [ congruence | reflexivity ]. Qed.




(** The insertion sort of positions is an [argsort] that sorts. *)
Lemma insert_by_permutation (keys : list Q) (i : nat) (l : list nat) :
  Permutation (insert_by keys i l) (i :: l).
Proof.
  induction l as [ | j l IH ]; simpl.
  - apply Permutation_refl.
  - destruct (Qle_bool (key keys i) (key keys j)).
    + apply Permutation_refl.
    + eapply perm_trans; [ apply perm_skip; exact IH | apply perm_swap ].
Qed.

Lemma insert_by_sorted (keys : list Q) (i : nat) (l : list nat) :
  StronglySorted (fun a b => key keys a <= key keys b) l ->
  StronglySorted (fun a b => key keys a <= key keys b) (insert_by keys i l).
Proof.
  induction 1 as [ | j l S IH F ]; simpl.
  - constructor; constructor.
  - destruct (Qle_bool (key keys i) (key keys j)) eqn:E.
    + apply Qle_bool_iff in E.
      constructor; [ constructor; assumption | ].
      constructor; [ exact E | ].
      eapply Forall_impl; [ | exact F ]. intros k Hk. eapply Qle_trans; eauto.
    + assert (Hji : key keys j <= key keys i).
      { apply Qlt_le_weak, Qnot_le_lt. intros Hle.
        apply Qle_bool_iff in Hle. congruence. }
      constructor; [ exact IH | ].
      apply Forall_forall. intros k Hk.
      apply (Permutation_in _ (insert_by_permutation keys i l)) in Hk.
      destruct Hk as [ <- | Hk ]; [ exact Hji | ].
      rewrite Forall_forall in F. now apply F.
Qed.

Lemma insertion_argsort_sorts : sorts insertion_argsort.
Proof.
  intros keys. unfold insertion_argsort.
  generalize (seq 0 (length keys)) as l.
  induction l as [ | i l [P S] ]; simpl.
  - split; constructor.
  - split.
    + eapply perm_trans; [ apply insert_by_permutation | now apply perm_skip ].
    + now apply insert_by_sorted.
Qed.


(** The same on the column, computed. *)
Example fix_line_column_run :
  fix_line bounding_rectangle insertion_argsort sample_column
  = Ok (sample_column_normalized, "vertical"%string)
  /\ map snd sample_column_normalized = [Some "w"; Some "o"; Some "r"; Some "d"]%string
  /\ map Qred (map fst (centers sample_column_normalized)) = [7; 7; 7; 7]
  /\ map Qred (map snd (centers sample_column_normalized)) = [3; 13; 23; 33].
Proof. repeat split; vm_compute; reflexivity. Qed.

End LineAssembly.

(** * Further properties *)

(** ** QA scoring: how [precision] reacts to its inputs *)

Section PrecisionFacts.

Import QA.

Lemma round_half_even_bounds (q : Q) :
  Qfloor q <= round_half_even q <= Qfloor q + 1.
Proof.
  unfold round_half_even.
  destruct (Qcompare _ _); [ destruct (Z.even _) | | ]; lia.
Qed.

Lemma round_half_even_mono (q q' : Q) :
  (q <= q')%Q -> round_half_even q <= round_half_even q'.
Proof.
  intros Hq.
  pose proof (Qfloor_resp_le q q' Hq) as Hf.
  destruct (Z.eq_dec (Qfloor q) (Qfloor q')) as [E | NE].
  - unfold round_half_even. rewrite <- E.
    destruct (Qcompare_spec (q - inject_Z (Qfloor q)) (1 # 2)) as [C | C | C];
      destruct (Qcompare_spec (q' - inject_Z (Qfloor q)) (1 # 2)) as [C' | C' | C'];
      try (destruct (Z.even (Qfloor q))); try lia; exfalso; lra.
  - pose proof (round_half_even_bounds q). pose proof (round_half_even_bounds q').
    lia.
Qed.

Lemma py_round2_mono (q q' : Q) : (q <= q')%Q -> (py_round2 q <= py_round2 q')%Q.
Proof.
  intros Hq. unfold py_round2. rewrite !Qred_correct.
  assert (H : round_half_even (q * 100) <= round_half_even (q' * 100)).
  { apply round_half_even_mono. lra. }
  unfold Qle. simpl. lia.
Qed.

Lemma filter_length_permutation {A : Type} (f : A -> bool) (l l' : list A) :
  Permutation l l' -> length (filter f l) = length (filter f l').
Proof.
  induction 1 as [ | x l l' _ IH | x y l | l l' l'' _ IH1 _ IH2 ]; simpl.
  - reflexivity.
  - destruct (f x); simpl; now rewrite IH.
  - destruct (f x), (f y); reflexivity.
  - now rewrite IH1.
Qed.

Lemma matching_pairs_permutation
    (gt_object gt_object' : list gt_entry) (predict predict' : list prediction) :
  Permutation gt_object gt_object' ->
  Permutation predict predict' ->
  matching_pairs gt_object predict = matching_pairs gt_object' predict'.
Proof.
  intros Hg Hp.
  induction Hg as [ | e l l' _ IH | e e' l | l l' l'' _ IH1 _ IH2 ]; simpl.
  - reflexivity.
  - rewrite IH, (filter_length_permutation (matches e) _ _ Hp). reflexivity.
  - rewrite (filter_length_permutation (matches e) _ _ Hp),
      (filter_length_permutation (matches e') _ _ Hp).
    assert (Hl : matching_pairs l predict = matching_pairs l predict').
    { clear -Hp. induction l as [ | a l IH ]; simpl; [ reflexivity | ].
      now rewrite IH, (filter_length_permutation (matches a) _ _ Hp). }
    fold (matching_pairs l predict). fold (matching_pairs l predict').
    rewrite Hl. lia.
  - rewrite IH1.
    assert (Hl : forall g, matching_pairs g predict' = matching_pairs g predict).
    { clear -Hp. induction g as [ | a g IH ]; simpl; [ reflexivity | ].
      now rewrite IH, (filter_length_permutation (matches a) _ _ Hp). }
    rewrite Hl. exact IH2.
Qed.

Lemma correct_answer_matching_pairs
    (gt_object : list gt_entry) (predict : list prediction) :
  correct_answer gt_object predict = matching_pairs gt_object predict.
Proof. unfold correct_answer. rewrite precision_outer_fold. lia. Qed.

(** X1: the order of the predictions and the order of the ground-truth
    entries play no part: [precision] returns the same value, or raises
    the same exception, on any rearrangement of either list. *)
Theorem precision_order_irrelevant
    (gt_object gt_object' : list gt_entry) (predict predict' : list prediction) :
  Permutation gt_object gt_object' ->
  Permutation predict predict' ->
  precision gt_object predict = precision gt_object' predict'.
Proof.
  intros Hg Hp. unfold precision.
  rewrite !correct_answer_matching_pairs.
  rewrite (matching_pairs_permutation _ _ _ _ Hg Hp).
  rewrite (Permutation_length Hg). reflexivity.
Qed.

Lemma precision_order_irrelevant_witness :
  Permutation sample_group (rev sample_group)
  /\ Permutation [sample_hit; sample_far_corner] [sample_far_corner; sample_hit]
  /\ precision sample_group [sample_hit; sample_far_corner]
     = precision (rev sample_group) [sample_far_corner; sample_hit].
Proof.
  assert (H1 : Permutation sample_group (rev sample_group))
    by apply Permutation_rev.
  assert (H2 : Permutation [sample_hit; sample_far_corner]
                           [sample_far_corner; sample_hit])
    by apply perm_swap.
  split; [ exact H1 | split; [ exact H2 | ] ].
  exact (precision_order_irrelevant _ _ _ _ H1 H2).
Defined.

Lemma matching_pairs_app (gt_object : list gt_entry) (p1 p2 : list prediction) :
  matching_pairs gt_object (p1 ++ p2)
  = matching_pairs gt_object p1 + matching_pairs gt_object p2.
Proof.
  induction gt_object as [ | e gt_object IH ]; simpl; [ reflexivity | ].
  rewrite IH, filter_app, length_app. lia.
Qed.

(** X2: the count of correct answers is additive in the predictions:
    scoring two prediction lists together counts what each counts alone. *)
Theorem correct_answer_additive
    (gt_object : list gt_entry) (p1 p2 : list prediction) :
  correct_answer gt_object (p1 ++ p2)
  = correct_answer gt_object p1 + correct_answer gt_object p2.
Proof.
  rewrite !correct_answer_matching_pairs. apply matching_pairs_app.
Qed.

(** X3: more predictions never lower the score: wrong or duplicated
    predictions are not penalised. *)
Theorem precision_monotone_in_predictions
    (gt_object : list gt_entry) (predict more : list prediction) :
  gt_object <> [] ->
  exists v v',
    precision gt_object predict = Ok v
    /\ precision gt_object (predict ++ more) = Ok v'
    /\ (v <= v')%Q.
Proof.
  intros Hne.
  assert (Hn : 0 < Z.of_nat (length gt_object)).
  { destruct gt_object; [ congruence | simpl length; lia ]. }
  assert (HnQ : (0 < inject_Z (Z.of_nat (length gt_object)))%Q).
  { change 0%Q with (inject_Z 0). rewrite <- Zlt_Qlt. exact Hn. }
  unfold precision. cbv zeta.
  destruct (Z.of_nat (length gt_object) =? 0) eqn:E;
    [ apply Z.eqb_eq in E; lia | ].
  eexists. eexists. split; [ reflexivity | split; [ reflexivity | ] ].
  apply py_round2_mono. unfold Qdiv. apply Qmult_le_compat_r.
  - rewrite <- Zle_Qle, !correct_answer_matching_pairs, matching_pairs_app.
    pose proof (matching_pairs_bounds gt_object more). lia.
  - apply Qinv_le_0_compat. apply Qlt_le_weak. exact HnQ.
Qed.

Lemma precision_monotone_in_predictions_witness :
  sample_group <> []
  /\ exists v v',
       precision sample_group [sample_hit] = Ok v
       /\ precision sample_group ([sample_hit] ++ [sample_far_corner]) = Ok v'
       /\ (v <= v')%Q.
Proof.
  split; [ discriminate | ].
  apply (precision_monotone_in_predictions
           sample_group [sample_hit] [sample_far_corner]).
  discriminate.
Defined.

(** X4: the coordinate test of [precision] is symmetric and is the
    closed tolerance band: it holds exactly when the two numbers differ
    by at most 10, a difference of exactly 10 included. *)
Theorem compare_difference_within_ten (a b : Z) :
  compare_difference a b = compare_difference b a
  /\ (compare_difference a b = true <-> Z.abs (a - b) <= 10).
Proof.
  rewrite !compare_difference_abs. split.
  - f_equal. lia.
  - apply Z.leb_le.
Qed.

End PrecisionFacts.

(** ** QA scoring: what the annotation reader keeps and rejects *)

Section AnnotationFacts.

Import QA Report.

Lemma gt_entry_eqb_key (a b : gt_entry) :
  gt_entry_eqb a b = true -> gt_key a = gt_key b.
Proof.
  unfold gt_entry_eqb. intros H. apply andb_true_iff in H as [H _].
  now apply String.eqb_eq.
Qed.

Lemma gt_entry_eqb_refl (a : gt_entry) : gt_entry_eqb a a = true.
Proof.
  unfold gt_entry_eqb, quad_eqb, point_eqb.
  now rewrite String.eqb_refl, !Z.eqb_refl.
Qed.

Lemma gt_entry_eqb_single_suit (a b : gt_entry) :
  gt_entry_eqb a b = true -> single_suit a = single_suit b.
Proof.
  intros H. unfold single_suit. now rewrite (gt_entry_eqb_key _ _ H).
Qed.

Lemma list_remove_keeps_others (x : gt_entry) (l : list gt_entry) :
  single_suit x = true ->
  filter (fun e => negb (single_suit e)) (list_remove x l)
  = filter (fun e => negb (single_suit e)) l.
Proof.
  intros Hx. induction l as [ | y l IH ]; simpl; [ reflexivity | ].
  destruct (gt_entry_eqb y x) eqn:E.
  - rewrite (gt_entry_eqb_single_suit _ _ E), Hx. reflexivity.
  - simpl. now rewrite IH.
Qed.

Lemma drop_single_suits_from_keeps_others (fuel idx : nat) (cards : list gt_entry) :
  filter (fun e => negb (single_suit e)) (drop_single_suits_from fuel idx cards)
  = filter (fun e => negb (single_suit e)) cards.
Proof.
  revert idx cards. induction fuel as [ | fuel IH ]; intros idx cards; simpl.
  - reflexivity.
  - destruct (nth_error cards idx) as [ i | ]; [ | reflexivity ].
    rewrite IH. fold (single_suit i).
    destruct (single_suit i) eqn:Hi; [ | reflexivity ].
    now apply list_remove_keeps_others.
Qed.

(** X5: the loop that drops single suits never loses a card whose label
    has another length: those cards come out all, and in their order. *)
Theorem drop_single_suits_keeps_longer_labels (cards : list gt_entry) :
  filter (fun e => negb (single_suit e)) (drop_single_suits cards)
  = filter (fun e => negb (single_suit e)) cards.
Proof. apply drop_single_suits_from_keeps_others. Qed.

Lemma list_remove_at_first_single (pre suf : list gt_entry) (s : gt_entry) :
  forallb (fun e => negb (single_suit e)) pre = true ->
  single_suit s = true ->
  list_remove s (pre ++ s :: suf) = pre ++ suf.
Proof.
  intros Hpre Hs. induction pre as [ | y pre IH ]; simpl.
  - now rewrite gt_entry_eqb_refl.
  - simpl in Hpre. apply andb_true_iff in Hpre as [Hy Hpre].
    destruct (gt_entry_eqb y s) eqn:E.
    + rewrite (gt_entry_eqb_single_suit _ _ E), Hs in Hy. discriminate.
    + now rewrite IH.
Qed.

Lemma drop_single_suits_from_past_end (fuel idx : nat) (cards : list gt_entry) :
  (length cards <= idx)%nat ->
  drop_single_suits_from fuel idx cards = cards.
Proof.
  intros H. destruct fuel; simpl; [ reflexivity | ].
  assert (E : nth_error cards idx = None) by now apply nth_error_None.
  now rewrite E.
Qed.

Lemma nth_error_middle {A : Type} (pre suf : list A) (x : A) :
  nth_error (pre ++ x :: suf) (length pre) = Some x.
Proof. rewrite nth_error_app2, Nat.sub_diag by lia. reflexivity. Qed.

Lemma drop_single_suits_from_spaced (fuel : nat) (pre suf : list gt_entry) :
  forallb (fun e => negb (single_suit e)) pre = true ->
  no_adjacent_single_suits suf = true ->
  (length suf <= fuel)%nat ->
  drop_single_suits_from fuel (length pre) (pre ++ suf)
  = pre ++ filter (fun e => negb (single_suit e)) suf.
Proof.
  revert pre suf. induction fuel as [ | fuel IH ]; intros pre suf Hpre Hsuf Hlen.
  - destruct suf; [ reflexivity | simpl in Hlen; lia ].
  - destruct suf as [ | s suf ]; [ apply drop_single_suits_from_past_end;
                                   rewrite length_app; simpl; lia | ].
    simpl drop_single_suits_from. rewrite nth_error_middle.
    fold (single_suit s). destruct (single_suit s) eqn:Hs.
    + rewrite (list_remove_at_first_single pre suf s Hpre Hs).
      simpl filter. rewrite Hs. simpl negb. cbv iota.
      destruct suf as [ | t suf ].
      * apply drop_single_suits_from_past_end. rewrite length_app. simpl. lia.
      * simpl in Hsuf. rewrite Hs in Hsuf. simpl in Hsuf.
        apply andb_true_iff in Hsuf as [Ht Hsuf].
        assert (Hsuf' : no_adjacent_single_suits suf = true).
        { destruct suf as [ | u suf ]; [ reflexivity | ].
          apply andb_true_iff in Hsuf as [_ Hsuf]. exact Hsuf. }
        specialize (IH (pre ++ [t]) suf).
        rewrite length_app, Nat.add_comm, <- app_assoc in IH. simpl in IH.
        rewrite IH.
        -- simpl filter. rewrite Ht, <- app_assoc. reflexivity.
        -- rewrite forallb_app, Hpre. simpl. now rewrite Ht.
        -- exact Hsuf'.
        -- simpl in Hlen. lia.
    + assert (Hsuf' : no_adjacent_single_suits suf = true).
      { destruct suf as [ | u suf ]; [ reflexivity | ].
        simpl in Hsuf. apply andb_true_iff in Hsuf as [_ Hsuf]. exact Hsuf. }
      specialize (IH (pre ++ [s]) suf).
      rewrite length_app, Nat.add_comm, <- app_assoc in IH. simpl in IH.
      rewrite IH.
      * simpl filter. rewrite Hs, <- app_assoc. reflexivity.
      * rewrite forallb_app, Hpre. simpl. now rewrite Hs.
      * exact Hsuf'.
      * simpl in Hlen. lia.
Qed.

(** X6: when no two cards with a one-character label stand next to each
    other in the list, the loop does what its comment says: exactly the
    cards with longer (or empty) labels remain, in their order. *)
Theorem drop_single_suits_when_spaced (cards : list gt_entry) :
  no_adjacent_single_suits cards = true ->
  drop_single_suits cards = filter (fun e => negb (single_suit e)) cards.
Proof.
  intros H. unfold drop_single_suits.
  exact (drop_single_suits_from_spaced (length cards) [] cards eq_refl H (le_n _)).
Qed.

Lemma drop_single_suits_when_spaced_witness :
  no_adjacent_single_suits
    [GtEntry "A" sample_quad; GtEntry "10h" sample_quad;
     GtEntry "K" sample_quad; GtEntry "" sample_quad] = true
  /\ drop_single_suits
       [GtEntry "A" sample_quad; GtEntry "10h" sample_quad;
        GtEntry "K" sample_quad; GtEntry "" sample_quad]
     = filter (fun e => negb (single_suit e))
         [GtEntry "A" sample_quad; GtEntry "10h" sample_quad;
          GtEntry "K" sample_quad; GtEntry "" sample_quad].
Proof.
  split; [ reflexivity | ].
  apply (drop_single_suits_when_spaced
           [GtEntry "A" sample_quad; GtEntry "10h" sample_quad;
            GtEntry "K" sample_quad; GtEntry "" sample_quad]).
  reflexivity.
Defined.

End AnnotationFacts.

Section ReaderFacts.

Import QA Report.

Variable int_of_float_text : option string -> result Z.

Lemma for_each_app {A S : Type} (body : S -> A -> result S) (xs ys : list A) (st : S) :
  for_each body (xs ++ ys) st
  = (let* st' := for_each body xs st in for_each body ys st').
Proof.
  revert st. induction xs as [ | x xs IH ]; intros st; simpl; [ reflexivity | ].
  destruct (body st x) as [ st' | e ]; simpl; [ apply IH | reflexivity ].
Qed.

Lemma for_each_fails {A S : Type} (body : S -> A -> result S) (xs : list A) (x : A) :
  (forall st, exists e, body st x = Raise e) ->
  In x xs ->
  forall st, exists e, for_each body xs st = Raise e.
Proof.
  intros Hx. induction xs as [ | y xs IH ]; intros Hin st; [ destruct Hin | ].
  simpl. destruct Hin as [ -> | Hin ].
  - destruct (Hx st) as (e & He). rewrite He. now exists e.
  - destruct (body st y) as [ st' | e ]; simpl; [ now apply IH | now exists e ].
Qed.

Lemma read_child_resets_values (st loc : locals) (el : element) :
  tag el <> "attributes"%string ->
  read_child int_of_float_text st el = Ok loc ->
  values loc = [].
Proof.
  intros Htag. unfold read_child. cbv zeta.
  apply String.eqb_neq in Htag. rewrite Htag. simpl.
  destruct (String.eqb (tag el) "polygon").
  - destruct (read_polygon int_of_float_text el); simpl; [ | discriminate ].
    intros H. injection H as <-. reflexivity.
  - intros H. injection H as <-. reflexivity.
Qed.

Lemma py_index_head {A : Type} (l : list A) (x : A) :
  hd_error l = Some x -> py_index l 0 = Ok x.
Proof. destruct l; simpl; [ discriminate | ]. intros H. now injection H as ->. Qed.

Lemma read_object_label_missing
    (i first el : element) (cs : list element) (object_name : string)
    (st : option (list (list Z)) * list gt_entry) :
  tag i = "object"%string ->
  hd_error (children i) = Some first ->
  text first = Some object_name ->
  children i = cs ++ [el] ->
  tag el <> "attributes"%string ->
  exists e, read_object int_of_float_text object_name st i = Raise e.
Proof.
  intros Htag Hfirst Htext Hch Hel.
  unfold read_object. destruct st as [coord0 list_box].
  rewrite Htag. simpl String.eqb. cbv iota.
  rewrite (py_index_head _ _ Hfirst). simpl bind.
  unfold text_eqb. rewrite Htext, String.eqb_refl.
  rewrite Hch, for_each_app.
  destruct (for_each (read_child int_of_float_text) cs (Locals [] coord0))
    as [ st' | e ]; simpl bind; [ | now exists e ].
  destruct (read_child int_of_float_text st' el) as [ loc | e ] eqn:Hloc;
    simpl bind; [ | now exists e ].
  rewrite (read_child_resets_values _ _ _ Hel Hloc).
  destruct (coord loc) as [ c | ]; [ | now eexists ].
  do 4 (match goal with
        | |- context [ coord_point ?c ?k ] =>
            destruct (coord_point c k); simpl bind; [ | now eexists ]
        end).
  now eexists.
Qed.

(** X7: the label of an object is the one set by its last child.  If a
    root holds an object of the requested category whose last child is
    not the [attributes] element (a polygon written after the
    attributes, say), [objects_bb] returns nothing: it raises. *)
Theorem objects_bb_label_must_come_last
    (root i first el : element) (cs : list element) (object_name : string) :
  In i (children root) ->
  tag i = "object"%string ->
  hd_error (children i) = Some first ->
  text first = Some object_name ->
  children i = cs ++ [el] ->
  tag el <> "attributes"%string ->
  exists e, objects_bb int_of_float_text root object_name = Raise e.
Proof.
  intros Hin Htag Hfirst Htext Hch Hel. unfold objects_bb.
  destruct (for_each_fails (read_object int_of_float_text object_name)
              (children root) i) with (st := (@None (list (list Z)), @nil gt_entry))
    as (e & He).
  - intros st. eapply read_object_label_missing; eauto.
  - exact Hin.
  - rewrite He. now exists e.
Qed.

Lemma precision_cases (gt_object : list gt_entry) (predict : list prediction) :
  (gt_object = [] /\ precision gt_object predict = Raise ZeroDivisionError)
  \/ (gt_object <> [] /\ exists v, precision gt_object predict = Ok v).
Proof.
  destruct gt_object as [ | g gt_object ].
  - left. split; reflexivity.
  - right. split; [ discriminate | ]. unfold precision. cbv zeta.
    destruct (Z.of_nat (length (g :: gt_object)) =? 0) eqn:E.
    + apply Z.eqb_eq in E. simpl length in E. lia.
    + eexists. reflexivity.
Qed.

(** X9: once the annotation is read, [count_precision] returns the
    three scores exactly when each of the three groups has an entry; an
    annotation that lacks one category makes it raise ZeroDivisionError,
    and it raises nothing else. *)
Theorem count_precision_needs_all_groups
    (root : element) (predict_file : list prediction)
    (cards money other : list gt_entry) :
  got_gt_objects int_of_float_text root = Ok (cards, money, other) ->
  ((cards = [] \/ money = [] \/ other = []) ->
   count_precision int_of_float_text root predict_file = Raise ZeroDivisionError)
  /\ (cards <> [] -> money <> [] -> other <> [] ->
      exists c m o,
        precision cards predict_file = Ok c
        /\ precision money predict_file = Ok m
        /\ precision other predict_file = Ok o
        /\ count_precision int_of_float_text root predict_file = Ok (c, m, o)).
Proof.
  intros Hgt. unfold count_precision. rewrite Hgt. simpl bind. split.
  - intros Hempty.
    destruct (precision_cases cards predict_file) as [ [Hc Hpc] | [Hc (c & Hpc)] ];
      rewrite Hpc; simpl bind; [ reflexivity | ].
    destruct (precision_cases money predict_file) as [ [Hm Hpm] | [Hm (m & Hpm)] ];
      rewrite Hpm; simpl bind; [ reflexivity | ].
    destruct (precision_cases other predict_file) as [ [Ho Hpo] | [Ho (o & Hpo)] ];
      rewrite Hpo; simpl bind; [ reflexivity | ].
    destruct Hempty as [ H | [ H | H ] ]; congruence.
  - intros Hc Hm Ho.
    destruct (precision_cases cards predict_file) as [ [Hc' _] | [_ (c & Hpc)] ];
      [ congruence | ].
    destruct (precision_cases money predict_file) as [ [Hm' _] | [_ (m & Hpm)] ];
      [ congruence | ].
    destruct (precision_cases other predict_file) as [ [Ho' _] | [_ (o & Hpo)] ];
      [ congruence | ].
    exists c, m, o. rewrite Hpc, Hpm, Hpo. repeat split; reflexivity.
Qed.

End ReaderFacts.

Section ReaderRuns.

Import QA Report.

Lemma objects_bb_label_must_come_last_witness :
  exists e,
    objects_bb decimal_int_of_float_text
      (Element "annotation" None
         [ Element "object" None
             [ Element "name" (Some "cards"%string) [];
               Element "attributes" (Some "label=10h"%string) [];
               Element "polygon" None
                 [ sample_pt "10" "20"; sample_pt "60" "20";
                   sample_pt "60" "90"; sample_pt "10" "90" ] ] ])
      "cards" = Raise e.
Proof.
  eapply (objects_bb_label_must_come_last decimal_int_of_float_text
            _ _ (Element "name" (Some "cards"%string) [])
            (Element "polygon" None
               [ sample_pt "10" "20"; sample_pt "60" "20";
                 sample_pt "60" "90"; sample_pt "10" "90" ])
            [ Element "name" (Some "cards"%string) [];
              Element "attributes" (Some "label=10h"%string) [] ]).
  - left. reflexivity.
  - reflexivity.
  - reflexivity.
  - reflexivity.
  - reflexivity.
  - discriminate.
Defined.

Lemma count_precision_needs_all_groups_witness :
  got_gt_objects decimal_int_of_float_text sample_full_annotation
  = Ok ([GtEntry "10h" sample_quad], [GtEntry "500" sample_quad],
        [GtEntry "dealer" sample_quad])
  /\ count_precision decimal_int_of_float_text sample_full_annotation [sample_hit]
     = Ok (1%Q, 0%Q, 0%Q)
  /\ count_precision decimal_int_of_float_text sample_annotation [sample_hit]
     = Raise ZeroDivisionError.
Proof.
  assert (H1 : got_gt_objects decimal_int_of_float_text sample_full_annotation
               = Ok ([GtEntry "10h" sample_quad], [GtEntry "500" sample_quad],
                     [GtEntry "dealer" sample_quad])) by reflexivity.
  assert (H2 : got_gt_objects decimal_int_of_float_text sample_annotation
               = Ok ([GtEntry "K" sample_quad; GtEntry "10h" sample_quad],
                     [GtEntry "500" sample_quad], [])) by reflexivity.
  split; [ exact H1 | split ].
  - destruct (count_precision_needs_all_groups decimal_int_of_float_text
                sample_full_annotation [sample_hit] _ _ _ H1) as [_ Hall].
    destruct Hall as (c & m & o & Hc & Hm & Ho & Hcount); try discriminate.
    rewrite Hcount.
    vm_compute in Hc, Hm, Ho.
    injection Hc as <-. injection Hm as <-. injection Ho as <-. reflexivity.
  - destruct (count_precision_needs_all_groups decimal_int_of_float_text
                sample_annotation [sample_hit] _ _ _ H2) as [Hnone _].
    apply Hnone. right. right. reflexivity.
Defined.

End ReaderRuns.

Section StalePolygon.

Import QA Report.

Variable int_of_float_text : option string -> result Z.

Lemma read_object_coord_follows
    (object_name : string) (st st' : option (list (list Z)) * list gt_entry)
    (i : element) :
  coord_follows st ->
  read_object int_of_float_text object_name st i = Ok st' ->
  coord_follows st'.
Proof.
  intros Hinv. unfold read_object. destruct st as [coord0 list_box].
  destruct (String.eqb (tag i) "object");
    [ | intros H; injection H as <-; exact Hinv ].
  destruct (py_index (children i) 0) as [ first | ]; simpl bind; [ | discriminate ].
  destruct (text_eqb (text first) object_name);
    [ | intros H; injection H as <-; exact Hinv ].
  destruct (for_each _ _ _) as [ loc | ]; simpl bind; [ | discriminate ].
  destruct (coord loc) as [ c | ] eqn:Hc; [ | discriminate ].
  destruct (coord_point c 0) as [ a | ] eqn:Ha; simpl bind; [ | discriminate ].
  destruct (coord_point c 1) as [ b | ] eqn:Hb; simpl bind; [ | discriminate ].
  destruct (coord_point c 2) as [ d | ] eqn:Hd; simpl bind; [ | discriminate ].
  destruct (coord_point c 3) as [ e | ] eqn:He; simpl bind; [ | discriminate ].
  destruct (py_index (values loc) (-1)) as [ k | ]; simpl bind; [ | discriminate ].
  intros H. injection H as <-. unfold coord_follows. simpl snd.
  rewrite rev_app_distr. simpl. exists c. split; [ reflexivity | ].
  unfold quad_of_coord. now rewrite Ha, Hb, Hd, He.
Qed.

Lemma for_each_read_object_coord_follows
    (object_name : string) (xs : list element)
    (st st' : option (list (list Z)) * list gt_entry) :
  coord_follows st ->
  for_each (read_object int_of_float_text object_name) xs st = Ok st' ->
  coord_follows st'.
Proof.
  revert st. induction xs as [ | x xs IH ]; intros st Hinv; simpl.
  - intros H. injection H as <-. exact Hinv.
  - destruct (read_object int_of_float_text object_name st x) as [ st1 | ] eqn:E;
      simpl bind; [ | discriminate ].
    apply IH. eapply read_object_coord_follows; eauto.
Qed.

Lemma read_child_plain (st : locals) (el : element) :
  plain_tag el = true ->
  read_child int_of_float_text st el = Ok (Locals [] (coord st)).
Proof.
  unfold plain_tag, read_child. intros H. apply andb_true_iff in H as [Ha Hp].
  apply negb_true_iff in Ha, Hp. cbv zeta. simpl coord. now rewrite Ha, Hp.
Qed.

Lemma for_each_read_child_plain (others : list element) (st : locals) :
  forallb plain_tag others = true ->
  exists v, for_each (read_child int_of_float_text) others st
            = Ok (Locals v (coord st)).
Proof.
  revert st. induction others as [ | el others IH ]; intros st H; simpl.
  - exists (values st). now destruct st.
  - simpl in H. apply andb_true_iff in H as [Hel H].
    rewrite (read_child_plain st el Hel). simpl bind.
    destruct (IH (Locals [] (coord st)) H) as (v & Hv). exists v. exact Hv.
Qed.

Lemma read_children_without_polygon
    (category attributes_text label : string) (others : list element)
    (coord0 : option (list (list Z))) :
  forallb plain_tag others = true ->
  py_index (split_char "="%char attributes_text) 1 = Ok label ->
  for_each (read_child int_of_float_text)
           (children (object_without_polygon category others attributes_text))
           (Locals [] coord0)
  = Ok (Locals [label] coord0).
Proof.
  intros Hothers Hlabel. unfold object_without_polygon. simpl children.
  rewrite app_comm_cons, for_each_app.
  destruct (for_each_read_child_plain
              (Element "name" (Some category) [] :: others) (Locals [] coord0))
    as (v & Hv).
  { simpl. exact Hothers. }
  rewrite Hv. simpl bind. simpl for_each.
  unfold read_child. cbv zeta. simpl tag. simpl text. simpl coord. simpl values.
  change (String.eqb "attributes" "attributes") with true. cbv iota.
  rewrite Hlabel. reflexivity.
Qed.

Lemma read_object_without_polygon
    (object_name attributes_text label : string) (others : list element)
    (coord0 : option (list (list Z))) (list_box : list gt_entry) :
  forallb plain_tag others = true ->
  py_index (split_char "="%char attributes_text) 1 = Ok label ->
  read_object int_of_float_text object_name (coord0, list_box)
              (object_without_polygon object_name others attributes_text)
  = match coord0 with
    | None => Raise UnboundLocalError
    | Some c =>
        let* q := quad_of_coord c in
        Ok (Some c, list_box ++ [GtEntry label q])
    end.
Proof.
  intros Hothers Hlabel. unfold read_object.
  rewrite (read_children_without_polygon object_name _ label others coord0
             Hothers Hlabel).
  change (tag (object_without_polygon object_name others attributes_text))
    with "object"%string.
  change (String.eqb "object" "object") with true. cbv iota.
  rewrite (py_index_head
             (children (object_without_polygon object_name others attributes_text))
             (Element "name" (Some object_name) []) eq_refl).
  simpl bind. unfold text_eqb. simpl text. rewrite String.eqb_refl.
  simpl bind. simpl coord. simpl values.
  destruct coord0 as [ c | ]; [ | reflexivity ].
  unfold quad_of_coord.
  destruct (coord_point c 0); simpl bind; [ | reflexivity ].
  destruct (coord_point c 1); simpl bind; [ | reflexivity ].
  destruct (coord_point c 2); simpl bind; [ | reflexivity ].
  destruct (coord_point c 3); simpl bind; reflexivity.
Qed.

(** X8: [coord] is a local of [objects_bb] that outlives the object
    that set it.  An object of the requested category that has no
    polygon takes the polygon of the last entry read before it, and
    raises UnboundLocalError when there is none. *)
Theorem objects_bb_reuses_previous_polygon
    (root_tag : string) (root_text : option string) (before : list element)
    (object_name attributes_text label : string) (others : list element)
    (entries : list gt_entry) :
  objects_bb int_of_float_text (Element root_tag root_text before) object_name
  = Ok entries ->
  forallb plain_tag others = true ->
  py_index (split_char "="%char attributes_text) 1 = Ok label ->
  objects_bb int_of_float_text
    (Element root_tag root_text
       (before ++ [object_without_polygon object_name others attributes_text]))
    object_name
  = match rev entries with
    | [] => Raise UnboundLocalError
    | last :: _ => Ok (entries ++ [GtEntry label (gt_coord last)])
    end.
Proof.
  unfold objects_bb. simpl children. intros Hbefore Hothers Hlabel.
  rewrite for_each_app.
  destruct (for_each (read_object int_of_float_text object_name) before (None, []))
    as [ [coord0 list_box] | ] eqn:Hst; simpl bind in Hbefore; [ | discriminate ].
  injection Hbefore as ->.
  assert (Hinv : coord_follows (coord0, entries)).
  { eapply for_each_read_object_coord_follows; [ | exact Hst ]. reflexivity. }
  cbn [bind for_each].
  rewrite (read_object_without_polygon object_name _ label others coord0 entries
             Hothers Hlabel).
  unfold coord_follows in Hinv. simpl fst in Hinv. simpl snd in Hinv.
  destruct (rev entries) as [ | last rest ].
  - rewrite Hinv. reflexivity.
  - destruct Hinv as (c & -> & Hq). rewrite Hq. reflexivity.
Qed.

End StalePolygon.

Section StalePolygonRuns.

Import QA Report.

Lemma objects_bb_reuses_previous_polygon_witness :
  objects_bb decimal_int_of_float_text
    (Element "annotation" None [sample_object "cards" "10h"]) "cards"
  = Ok [GtEntry "10h" sample_quad]
  /\ forallb plain_tag [Element "deleted" (Some "0"%string) []] = true
  /\ py_index (split_char "="%char "label=Qs") 1 = Ok "Qs"%string
  /\ objects_bb decimal_int_of_float_text
       (Element "annotation" None
          ([sample_object "cards" "10h"]
           ++ [object_without_polygon "cards"
                 [Element "deleted" (Some "0"%string) []] "label=Qs"]))
       "cards"
     = Ok [GtEntry "10h" sample_quad; GtEntry "Qs" sample_quad].
Proof.
  assert (H1 : objects_bb decimal_int_of_float_text
                 (Element "annotation" None [sample_object "cards" "10h"]) "cards"
               = Ok [GtEntry "10h" sample_quad]) by reflexivity.
  assert (H2 : forallb plain_tag [Element "deleted" (Some "0"%string) []] = true)
    by reflexivity.
  assert (H3 : py_index (split_char "="%char "label=Qs") 1 = Ok "Qs"%string)
    by reflexivity.
  split; [ exact H1 | split; [ exact H2 | split; [ exact H3 | ] ] ].
  exact (objects_bb_reuses_previous_polygon decimal_int_of_float_text
           "annotation" None [sample_object "cards" "10h"] "cards" "label=Qs" "Qs"
           [Element "deleted" (Some "0"%string) []]
           [GtEntry "10h" sample_quad] H1 H2 H3).
Defined.

End StalePolygonRuns.

(** ** Decoding: the indices [decode_prediction] accepts *)

Section DecodingFacts.

Import OneGraphPipeline Scores.

Lemma py_index_error {A : Type} (l : list A) (i : Z) (e : exn) :
  py_index l i = Raise e -> e = IndexError.
Proof.
  unfold py_index. cbv zeta.
  destruct (_ && _); [ destruct (nth_error _ _) | ];
    intros H; try discriminate; now injection H as <-.
Qed.

Lemma py_index_out_of_range {A : Type} (l : list A) (i : Z) :
  i < - Z.of_nat (length l) \/ Z.of_nat (length l) <= i ->
  py_index l i = Raise IndexError.
Proof.
  intros Hi. unfold py_index. cbv zeta.
  destruct (i <? 0) eqn:Hneg.
  - apply Z.ltb_lt in Hneg.
    destruct (0 <=? i + Z.of_nat (length l)) eqn:H0; [ | reflexivity ].
    apply Z.leb_le in H0. lia.
  - apply Z.ltb_ge in Hneg.
    destruct (i <? Z.of_nat (length l)) eqn:H1.
    + apply Z.ltb_lt in H1. lia.
    + now rewrite andb_false_r.
Qed.

Lemma py_index_within {A : Type} (l : list A) (i : Z) :
  - Z.of_nat (length l) <= i < Z.of_nat (length l) ->
  exists a, py_index l i = Ok a.
Proof.
  intros Hi. unfold py_index. cbv zeta.
  set (j := if i <? 0 then i + Z.of_nat (length l) else i).
  assert (Hj : 0 <= j < Z.of_nat (length l)).
  { unfold j. destruct (i <? 0) eqn:Hneg;
      [ apply Z.ltb_lt in Hneg | apply Z.ltb_ge in Hneg ]; lia. }
  destruct (0 <=? j) eqn:H0; [ | apply Z.leb_gt in H0; lia ].
  destruct (j <? Z.of_nat (length l)) eqn:H1; [ | apply Z.ltb_ge in H1; lia ].
  simpl. destruct (nth_error l (Z.to_nat j)) as [ a | ] eqn:E.
  - now exists a.
  - apply nth_error_None in E. lia.
Qed.

Lemma decode_chars_verdict (alphabet : list string) (row : list Z) :
  match decode_chars (init alphabet) row with
  | Ok _ => forallb (decodable alphabet) row = true
  | Raise e => forallb (decodable alphabet) row = false /\ e = IndexError
  end.
Proof.
  induction row as [ | idx row IH ]; simpl; [ reflexivity | ].
  unfold kept, decodable.
  cbn [init blank_label_idx OneGraphPipeline.alphabet].
  set (n := Z.of_nat (length alphabet)) in *.
  destruct (idx =? n) eqn:E1.
  { apply Z.eqb_eq in E1. simpl negb. cbv iota.
    replace ((- n <=? idx) && (idx <=? n)) with true
      by (symmetry; apply andb_true_iff; split; apply Z.leb_le; lia).
    exact IH. }
  destruct (idx =? -1) eqn:E2.
  { simpl negb. cbv iota. rewrite orb_true_r. exact IH. }
  apply Z.eqb_neq in E1, E2. simpl negb. cbv iota. rewrite orb_false_r.
  destruct ((- n <=? idx) && (idx <=? n)) eqn:Hr.
  - apply andb_true_iff in Hr as [Hlo Hhi].
    apply Z.leb_le in Hlo, Hhi.
    destruct (py_index_within alphabet idx) as (c & Hc); [ fold n; lia | ].
    rewrite Hc. simpl bind.
    destruct (decode_chars (init alphabet) row) as [ cs | e ]; simpl bind.
    + exact IH.
    + exact IH.
  - rewrite py_index_out_of_range.
    + simpl bind. split; reflexivity.
    + fold n. apply andb_false_iff in Hr as [ Hr | Hr ];
        apply Z.leb_gt in Hr; lia.
Qed.

(** X10: [decode_prediction] returns one text per row exactly when
    every index of every row is -1 or lies between minus the alphabet
    length and the alphabet length; any other index, anywhere, makes the
    whole call raise IndexError, and it raises nothing else. *)
Theorem decode_prediction_verdict (alphabet : list string) (raw_predict : list (list Z)) :
  match decode_prediction (init alphabet) raw_predict with
  | Ok texts =>
      forallb (forallb (decodable alphabet)) raw_predict = true
      /\ length texts = length raw_predict
  | Raise e =>
      forallb (forallb (decodable alphabet)) raw_predict = false
      /\ e = IndexError
  end.
Proof.
  unfold decode_prediction.
  induction raw_predict as [ | row raw IH ]; simpl; [ split; reflexivity | ].
  unfold decode_row at 1.
  pose proof (decode_chars_verdict alphabet row) as Hrow.
  destruct (decode_chars (init alphabet) row) as [ cs | e ]; simpl bind.
  - rewrite Hrow. simpl andb.
    destruct (map_result (decode_row (init alphabet)) raw) as [ texts | e ];
      simpl bind.
    + destruct IH as [IH1 IH2]. split; [ exact IH1 | simpl; now rewrite IH2 ].
    + exact IH.
  - destruct Hrow as [Hrow ->]. rewrite Hrow. split; reflexivity.
Qed.

Lemma py_index_negative {A : Type} (l : list A) (i : Z) :
  - Z.of_nat (length l) <= i < 0 ->
  py_index l i = py_index l (i + Z.of_nat (length l)).
Proof.
  intros Hi. unfold py_index. cbv zeta.
  destruct (i <? 0) eqn:H1; [ | apply Z.ltb_ge in H1; lia ].
  destruct (i + Z.of_nat (length l) <? 0) eqn:H2;
    [ apply Z.ltb_lt in H2; lia | reflexivity ].
Qed.

Lemma decode_chars_negative_index (alphabet : list string) (row1 row2 : list Z)
    (idx : Z) :
  - Z.of_nat (length alphabet) <= idx < -1 ->
  decode_chars (init alphabet) (row1 ++ idx :: row2)
  = decode_chars (init alphabet) (row1 ++ (idx + Z.of_nat (length alphabet)) :: row2).
Proof.
  intros Hi.
  assert (Hk : forall i, i <> Z.of_nat (length alphabet) -> i <> -1 ->
                         kept (init alphabet) i = true).
  { intros i H1 H2. unfold kept. simpl blank_label_idx.
    apply Z.eqb_neq in H1, H2. now rewrite H1, H2. }
  induction row1 as [ | i row1 IH ]; simpl.
  - rewrite !Hk by lia. cbn [init OneGraphPipeline.alphabet].
    now rewrite (py_index_negative alphabet idx) by lia.
  - now rewrite IH.
Qed.

(** X11: only -1 means "nothing detected".  Any other negative index
    down to minus the alphabet length is read from the end of the
    alphabet, as Python indexes: the result is the one obtained with the
    index plus the alphabet length in its place. *)
Theorem decode_prediction_negative_index_wraps
    (alphabet : list string) (raw1 raw2 : list (list Z)) (row1 row2 : list Z)
    (idx : Z) :
  - Z.of_nat (length alphabet) <= idx < -1 ->
  decode_prediction (init alphabet) (raw1 ++ (row1 ++ idx :: row2) :: raw2)
  = decode_prediction (init alphabet)
      (raw1 ++ (row1 ++ (idx + Z.of_nat (length alphabet)) :: row2) :: raw2).
Proof.
  intros Hi.
  assert (Hrow : decode_row (init alphabet) (row1 ++ idx :: row2)
                 = decode_row (init alphabet)
                     (row1 ++ (idx + Z.of_nat (length alphabet)) :: row2)).
  { unfold decode_row. now rewrite decode_chars_negative_index. }
  unfold decode_prediction. rewrite !map_result_app. simpl.
  now rewrite Hrow.
Qed.

Lemma decode_prediction_negative_index_wraps_witness :
  - Z.of_nat (length ["a"; "b"; "c"]%string) <= -2 < -1
  /\ decode_prediction (init ["a"; "b"; "c"]%string) ([[0]] ++ ([2] ++ -2 :: [0]) :: [])
     = Ok ["a"; "cba"]%string.
Proof.
  assert (H : - Z.of_nat (length ["a"; "b"; "c"]%string) <= -2 < -1)
    by (split; [ discriminate | reflexivity ]).
  split; [ exact H | ].
  rewrite (decode_prediction_negative_index_wraps
             ["a"; "b"; "c"]%string [[0]] [] [2] [0] (-2) H).
  reflexivity.
Defined.

End DecodingFacts.

(** ** Scores *)

Section ScoreFacts.

Import Scores.
Local Open Scope Q_scope.

Lemma argmax_from_bound (l : list Q) (best_i i : nat) (best : Q) :
  (best_i < i)%nat -> (argmax_from best_i best i l < i + length l)%nat.
Proof.
  revert best_i i best. induction l as [ | x l IH ]; intros best_i i best H; simpl.
  - lia.
  - destruct (Qle_bool x best).
    + specialize (IH best_i (S i) best). lia.
    + specialize (IH i (S i) x). lia.
Qed.

Lemma np_argmax_picks (j : list Q) :
  j <> [] ->
  exists k p, np_argmax j = Ok k /\ py_index j (Z.of_nat k) = Ok p /\ In p j.
Proof.
  intros Hj. destruct j as [ | x j ]; [ congruence | ].
  exists (argmax_from 0 x 1 j), (nth (argmax_from 0 x 1 j) (x :: j) 0).
  pose proof (argmax_from_bound j 0 1 x ltac:(lia)) as Hb.
  split; [ reflexivity | split ].
  - rewrite (py_index_in_range (x :: j) _ 0) by (simpl length; lia).
    now rewrite Nat2Z.id.
  - apply nth_In. simpl length. lia.
Qed.

Lemma box_probability_from (box : list (list Q)) (acc : Q) :
  Forall probability_vector box ->
  0 <= acc <= 1 ->
  exists s,
    for_each (fun probability j =>
                let* index := np_argmax j in
                let* p := py_index j (Z.of_nat index) in
                Ok (probability * p)) box acc = Ok s
    /\ 0 <= s <= 1.
Proof.
  intros Hbox. revert acc.
  induction Hbox as [ | j box [Hne Hj] _ IH ]; intros acc Hacc; simpl.
  - now exists acc.
  - destruct (np_argmax_picks j Hne) as (k & p & Hk & Hp & Hin).
    rewrite Hk. simpl bind. rewrite Hp. simpl bind.
    rewrite Forall_forall in Hj. specialize (Hj p Hin).
    apply IH. split; nra.
Qed.

(** X12: when every step of every box is a non-empty vector of
    probabilities, [_convert_to_chargroup] returns, for every image, one
    score per box, and every score lies between 0 and 1. *)
Theorem convert_to_chargroup_scores
    (prob_score_batch : list (list (list (list Q)))) :
  Forall (Forall (Forall probability_vector)) prob_score_batch ->
  exists batch,
    _convert_to_chargroup prob_score_batch = Ok batch
    /\ Forall2 (fun probability_array probability_list =>
                  length probability_list = length probability_array
                  /\ Forall (fun s => 0 <= s <= 1) probability_list)
               prob_score_batch batch.
Proof.
  unfold _convert_to_chargroup.
  induction 1 as [ | arr batch Harr _ IH ]; simpl.
  - exists []. split; [ reflexivity | constructor ].
  - assert (Hrow : exists ss, map_result box_probability arr = Ok ss
                              /\ length ss = length arr
                              /\ Forall (fun s => 0 <= s <= 1) ss).
    { clear -Harr. induction Harr as [ | box arr Hbox _ IH ]; simpl.
      - exists []. repeat split; constructor.
      - destruct (box_probability_from box 1 Hbox ltac:(lra)) as (s & Hs & Hs01).
        unfold box_probability at 1. rewrite Hs. simpl bind.
        destruct IH as (ss & Hss & Hlen & Hall). rewrite Hss. simpl bind.
        exists (s :: ss). repeat split; simpl; auto. }
    destruct Hrow as (ss & Hss & Hlen & Hall). rewrite Hss. simpl bind.
    destruct IH as (rest & Hrest & Hf2). rewrite Hrest. simpl bind.
    exists (ss :: rest). split; [ reflexivity | ].
    constructor; [ split; assumption | exact Hf2 ].
Qed.

Lemma convert_to_chargroup_scores_witness :
  Forall (Forall (Forall probability_vector))
         [[ [[1 # 10; 9 # 10]; [1 # 2; 1 # 2]]; [[1; 0]] ]]
  /\ exists batch,
       _convert_to_chargroup [[ [[1 # 10; 9 # 10]; [1 # 2; 1 # 2]]; [[1; 0]] ]]
       = Ok batch
       /\ Forall2 (fun probability_array probability_list =>
                     length probability_list = length probability_array
                     /\ Forall (fun s => 0 <= s <= 1) probability_list)
                  [[ [[1 # 10; 9 # 10]; [1 # 2; 1 # 2]]; [[1; 0]] ]] batch.
Proof.
  assert (H : Forall (Forall (Forall probability_vector))
                     [[ [[1 # 10; 9 # 10]; [1 # 2; 1 # 2]]; [[1; 0]] ]]).
  { repeat constructor; try discriminate. }
  split; [ exact H | ].
  exact (convert_to_chargroup_scores _ H).
Defined.

(** A run: each score is the product of the largest probabilities. *)
Example convert_to_chargroup_run :
  match _convert_to_chargroup [[ [[1 # 10; 9 # 10]; [1 # 2; 1 # 2]]; [[1; 0]] ]] with
  | Ok batch => map (map Qred) batch = [[9 # 20; 1]]
  | Raise _ => False
  end.
Proof. reflexivity. Qed.

End ScoreFacts.

(** ** Images: what pad, warpBox and fit put on the canvas *)

Section ImageFacts.

Import Boxes Images ImageTools.

Variable pixel : Type.

Lemma overwrite_length {A : Type} (f : A -> A -> A) (dst src : list A) :
  length (overwrite f dst src) = length dst.
Proof.
  revert src. induction dst as [ | d dst IH ]; intros [ | x src ]; simpl;
    try reflexivity.
  now rewrite IH.
Qed.

Lemma overwrite_Forall {A : Type} (P : A -> Prop) (f : A -> A -> A)
    (dst src : list A) :
  (forall d x, P d -> P (f d x)) ->
  Forall P dst -> Forall P (overwrite f dst src).
Proof.
  intros Hf Hdst. revert src.
  induction Hdst as [ | d dst Hd Hdst IH ]; intros [ | x src ]; simpl;
    constructor; auto.
Qed.

Lemma overwrite_repeat {A : Type} (f : A -> A -> A) (d : A) (n : nat) (src : list A) :
  (length src <= n)%nat ->
  overwrite f (repeat d n) src = map (f d) src ++ repeat d (n - length src).
Proof.
  revert n. induction src as [ | x src IH ]; intros n Hn; simpl.
  - rewrite Nat.sub_0_r. destruct n; reflexivity.
  - destruct n as [ | n ]; simpl in *; [ lia | ].
    rewrite IH by lia. reflexivity.
Qed.

Lemma zeros_plus_ok (height width : Z) (cval : pixel) (z : image pixel) :
  zeros_plus pixel (height, width) cval = Ok z ->
  0 <= height /\ 0 <= width
  /\ z = Image height width
           (repeat (repeat cval (Z.to_nat width)) (Z.to_nat height)).
Proof.
  unfold zeros_plus.
  destruct (height <? 0) eqn:Hh; simpl; [ discriminate | ].
  destruct (width <? 0) eqn:Hw; simpl; [ discriminate | ].
  apply Z.ltb_ge in Hh, Hw. intros H. injection H as <-. auto.
Qed.

Lemma set_top_left_keeps_shape (dst src r : image pixel) (n0 n1 : Z) :
  set_top_left pixel dst n0 n1 src = Ok r ->
  well_formed pixel dst ->
  shape0 r = shape0 dst /\ shape1 r = shape1 dst /\ well_formed pixel r.
Proof.
  unfold set_top_left. cbv zeta.
  destruct (_ && _); [ | discriminate ].
  intros H [Hrows Hcols]. injection H as <-. simpl.
  split; [ reflexivity | split; [ reflexivity | ] ].
  unfold well_formed. simpl. split.
  - now rewrite overwrite_length.
  - apply overwrite_Forall; [ | exact Hcols ].
    intros d x Hd. now rewrite overwrite_length.
Qed.

Lemma zeros_plus_well_formed (height width : Z) (cval : pixel) (z : image pixel) :
  zeros_plus pixel (height, width) cval = Ok z ->
  shape0 z = height /\ shape1 z = width /\ well_formed pixel z.
Proof.
  intros H. apply zeros_plus_ok in H as (Hh & Hw & ->). simpl.
  split; [ reflexivity | split; [ reflexivity | ] ].
  unfold well_formed. simpl. split.
  - rewrite repeat_length. lia.
  - apply Forall_forall. intros row Hrow. apply repeat_spec in Hrow. subst row.
    rewrite repeat_length. lia.
Qed.

(** X13: whenever [warpBox] returns, the image it returns is a canvas of
    exactly [target_height] rows of [target_width] pixels, whatever the
    box, the source image and the resize routine. *)
Theorem warpBox_output_shape
    (zero : pixel) (uint8 : pixel -> pixel)
    (cv2_resize : image pixel -> Z -> Z -> result (image pixel))
    (im r : image pixel) (box : Boxes.box) (target_height target_width margin : Z)
    (cval : option pixel) :
  warpBox pixel zero uint8 cv2_resize im box target_height target_width margin cval
  = Ok r ->
  shape0 r = target_height /\ shape1 r = target_width
  /\ length (rows r) = Z.to_nat target_height
  /\ Forall (fun row => length row = Z.to_nat target_width) (rows r).
Proof.
  unfold warpBox. cbv zeta.
  destruct (py_index box 2) as [ b2 | ]; cbn [bind]; [ | discriminate ].
  destruct (py_index box 0) as [ b0 | ]; cbn [bind]; [ | discriminate ].
  destruct (_ || _); [ discriminate | ].
  destruct (cv2_resize _ _ _) as [ crop | ]; cbn [bind]; [ | discriminate ].
  match goal with
  | |- context [ zeros_plus ?p ?s ?c ] =>
      destruct (zeros_plus p s c) as [ full | ] eqn:Hz
  end; cbn [bind]; [ | discriminate ].
  intros Hset.
  destruct (zeros_plus_well_formed _ _ _ _ Hz) as (H0 & H1 & Hwf).
  destruct (set_top_left_keeps_shape _ _ _ _ _ Hset Hwf) as (Hr0 & Hr1 & [Hl Hc]).
  apply zeros_plus_ok in Hz as (Hh & Hw & _).
  rewrite Hr0, H0 in Hl. rewrite Hr1, H1 in Hc.
  split; [ congruence | split; [ congruence | split ] ].
  - lia.
  - eapply Forall_impl; [ | exact Hc ]. simpl. intros row Hrow. lia.
Qed.

Lemma slice_len_prefix (n k : Z) : 0 <= k <= n -> slice_len n 0 k = k.
Proof.
  intros H. unfold slice_len, slice_bound.
  change (0 <? 0) with false. cbv iota.
  destruct (k <? 0) eqn:E; [ apply Z.ltb_lt in E; lia | ]. lia.
Qed.

Lemma slice_len_clipped (n k : Z) : 0 <= n < k -> slice_len n 0 k = n.
Proof.
  intros H. unfold slice_len, slice_bound.
  change (0 <? 0) with false. cbv iota.
  destruct (k <? 0) eqn:E; [ apply Z.ltb_lt in E; lia | ]. lia.
Qed.

Lemma broadcast_same {A : Type} (s : Z) (l : list A) : broadcast s s l = l.
Proof. unfold broadcast. now rewrite Z.eqb_refl. Qed.

(** X14: an image that fits in the target is copied to the top left of
    the result of [pad]: every row of the image comes back followed by
    [width - shape[1]] fill pixels, and [height - shape[0]] rows of fill
    pixels follow. *)
Theorem pad_places_image_top_left
    (im : image pixel) (width height : Z) (cval : pixel) :
  well_formed pixel im ->
  0 <= shape1 im <= width ->
  shape0 im <= height ->
  pad pixel im width height cval
  = Ok (Image height width
          (map (fun row => row ++ repeat cval (Z.to_nat (width - shape1 im)))
               (rows im)
           ++ repeat (repeat cval (Z.to_nat width))
                     (Z.to_nat (height - shape0 im)))).
Proof.
  intros [Hrows Hcols] H1 H0.
  assert (Hs0 : 0 <= shape0 im) by lia.
  unfold pad, pad_output_shape. cbv zeta. simpl fst. simpl snd.
  rewrite !Z.geb_leb, !Z.leb_refl. simpl negb. cbv iota.
  unfold zeros_plus.
  destruct (height <? 0) eqn:Eh; [ apply Z.ltb_lt in Eh; lia | ].
  destruct (width <? 0) eqn:Ew; [ apply Z.ltb_lt in Ew; lia | ].
  simpl orb. cbv iota. simpl bind.
  unfold set_top_left. cbv zeta. simpl shape0. simpl shape1. simpl rows.
  rewrite !slice_len_prefix by lia.
  unfold broadcasts. rewrite !Z.eqb_refl. simpl andb. cbv iota.
  rewrite broadcast_same.
  rewrite (map_ext _ (fun row => row) (fun row => broadcast_same _ row)), map_id.
  f_equal. f_equal.
  rewrite overwrite_repeat by lia.
  f_equal.
  - apply map_ext_in. intros row Hrow.
    rewrite Forall_forall in Hcols. specialize (Hcols row Hrow).
    rewrite overwrite_repeat by lia. rewrite map_id.
    f_equal. f_equal. lia.
  - f_equal. lia.
Qed.

(** X15: the exception the docstring of [pad] announces for an image
    larger than the target is NumPy's: a target with fewer rows than an
    image of several rows, or fewer columns than an image of several
    columns, makes the assignment into the canvas raise ValueError. *)
Theorem pad_rejects_larger_image
    (im : image pixel) (width height : Z) (cval : pixel) :
  0 <= height ->
  0 <= width ->
  (height < shape0 im /\ shape0 im <> 1) \/ (width < shape1 im /\ shape1 im <> 1) ->
  pad pixel im width height cval
  = Raise (ValueError "could not broadcast input array").
Proof.
  intros Hh Hw Hbig.
  unfold pad, pad_output_shape. cbv zeta. simpl fst. simpl snd.
  rewrite !Z.geb_leb, !Z.leb_refl. simpl negb. cbv iota.
  unfold zeros_plus.
  destruct (height <? 0) eqn:Eh; [ apply Z.ltb_lt in Eh; lia | ].
  destruct (width <? 0) eqn:Ew; [ apply Z.ltb_lt in Ew; lia | ].
  simpl orb. cbv iota. simpl bind.
  unfold set_top_left. cbv zeta. simpl shape0. simpl shape1.
  assert (Hb : broadcasts (shape0 im) (slice_len height 0 (shape0 im))
               && broadcasts (shape1 im) (slice_len width 0 (shape1 im)) = false).
  { apply andb_false_iff. unfold broadcasts.
    destruct Hbig as [ [Hlt Hne] | [Hlt Hne] ]; [ left | right ];
      rewrite slice_len_clipped by lia;
      apply orb_false_iff; split; apply Z.eqb_neq; lia. }
  now rewrite Hb.
Qed.

End ImageFacts.

Section ImageRuns.

Import Boxes Images ImageTools.

Lemma pad_places_image_top_left_witness :
  well_formed Z sample_image
  /\ 0 <= shape1 sample_image <= 4
  /\ shape0 sample_image <= 3
  /\ pad Z sample_image 4 3 255
     = Ok (Image 3 4 [[10; 20; 30; 255]; [40; 50; 60; 255]; [255; 255; 255; 255]]).
Proof.
  assert (H1 : well_formed Z sample_image).
  { split; [ reflexivity | repeat constructor ]. }
  assert (H2 : 0 <= shape1 sample_image <= 4) by (split; discriminate).
  assert (H3 : shape0 sample_image <= 3) by discriminate.
  split; [ exact H1 | split; [ exact H2 | split; [ exact H3 | ] ] ].
  rewrite (pad_places_image_top_left Z sample_image 4 3 255 H1 H2 H3).
  reflexivity.
Defined.

Lemma pad_rejects_larger_image_witness :
  0 <= 1 /\ 0 <= 5
  /\ ((1 < shape0 sample_image /\ shape0 sample_image <> 1)
      \/ (5 < shape1 sample_image /\ shape1 sample_image <> 1))
  /\ pad Z sample_image 5 1 255
     = Raise (ValueError "could not broadcast input array").
Proof.
  assert (H1 : 0 <= 1) by discriminate.
  assert (H2 : 0 <= 5) by discriminate.
  assert (H3 : (1 < shape0 sample_image /\ shape0 sample_image <> 1)
               \/ (5 < shape1 sample_image /\ shape1 sample_image <> 1)).
  { left. split; [ reflexivity | discriminate ]. }
  split; [ exact H1 | split; [ exact H2 | split; [ exact H3 | ] ] ].
  exact (pad_rejects_larger_image Z sample_image 5 1 255 H1 H2 H3).
Defined.

Lemma warpBox_output_shape_witness :
  warpBox Z 0 (fun v => v mod 256) nearest_resize sample_image
          [(1, 0); (3, 0); (3, 2); (1, 2)]%Q 2 4 7 None
  = Ok (Image 2 4 [[20; 30; 0; 0]; [50; 60; 0; 0]])
  /\ shape0 (Image 2 4 [[20; 30; 0; 0]; [50; 60; 0; 0]]) = 2
  /\ shape1 (Image 2 4 [[20; 30; 0; 0]; [50; 60; 0; 0]]) = 4
  /\ length (rows (Image 2 4 [[20; 30; 0; 0]; [50; 60; 0; 0]])) = Z.to_nat 2
  /\ Forall (fun row => length row = Z.to_nat 4)
            (rows (Image 2 4 [[20; 30; 0; 0]; [50; 60; 0; 0]])).
Proof.
  assert (H : warpBox Z 0 (fun v => v mod 256) nearest_resize sample_image
                      [(1, 0); (3, 0); (3, 2); (1, 2)]%Q 2 4 7 None
              = Ok (Image 2 4 [[20; 30; 0; 0]; [50; 60; 0; 0]]))
    by reflexivity.
  split; [ exact H | ].
  exact (warpBox_output_shape Z 0 (fun v => v mod 256) nearest_resize
           sample_image _ _ 2 4 7 None H).
Defined.

End ImageRuns.

(** ** Images: scales and sizes chosen by fit, warpBox and resize_image *)

Section ScaleFacts.

Import Boxes Images ImageTools.
Local Open Scope Q_scope.

Variable pixel : Type.

Variable cv2_resize : image pixel -> Z -> Z -> result (image pixel).














(** X18: a box whose first and third corners share their x or their y
    spans no area to crop: [warpBox] returns no image for it. *)
Theorem warpBox_degenerate_box
    (zero : pixel) (uint8 : pixel -> pixel)
    (im : image pixel) (box : Boxes.box) (b0 b2 : point)
    (target_height target_width margin : Z) (cval : option pixel) :
  py_index box 0 = Ok b0 ->
  py_index box 2 = Ok b2 ->
  fst b0 == fst b2 \/ snd b0 == snd b2 ->
  exists e,
    warpBox pixel zero uint8 cv2_resize im box target_height target_width margin cval
    = Raise e.
Proof.
  intros Hb0 Hb2 Hdeg. unfold warpBox. cbv zeta.
  rewrite Hb2, Hb0. cbn [bind].
  assert (Hz : Qeq_bool (Qabs (fst b2 - fst b0)) 0
               || Qeq_bool (Qabs (snd b2 - snd b0)) 0 = true).
  { apply orb_true_iff.
    destruct Hdeg as [ Hx | Hy ]; [ left | right ]; apply Qeq_bool_iff.
    - assert (E : fst b2 - fst b0 == 0) by lra. now rewrite E.
    - assert (E : snd b2 - snd b0 == 0) by lra. now rewrite E. }
  rewrite Hz. now eexists.
Qed.


End ScaleFacts.

Section ScaleRuns.

Import Boxes Images ImageTools ImageSamples.



Lemma warpBox_degenerate_box_witness :
  py_index [(1, 0); (3, 0); (1, 2); (1, 2)]%Q 0 = Ok (1, 0)%Q
  /\ py_index [(1, 0); (3, 0); (1, 2); (1, 2)]%Q 2 = Ok (1, 2)%Q
  /\ (fst (1, 0) == fst (1, 2) \/ snd (1, 0) == snd (1, 2))%Q
  /\ exists e,
       warpBox Z 0 (fun v => v mod 256) nearest_resize sample_image
               [(1, 0); (3, 0); (1, 2); (1, 2)]%Q 2 4 0 None
       = Raise e.
Proof.
  assert (H1 : py_index [(1, 0); (3, 0); (1, 2); (1, 2)]%Q 0 = Ok (1, 0)%Q)
    by reflexivity.
  assert (H2 : py_index [(1, 0); (3, 0); (1, 2); (1, 2)]%Q 2 = Ok (1, 2)%Q)
    by reflexivity.
  assert (H3 : (fst (1, 0) == fst (1, 2) \/ snd (1, 0) == snd (1, 2))%Q)
    by (left; reflexivity).
  split; [ exact H1 | split; [ exact H2 | split; [ exact H3 | ] ] ].
  exact (warpBox_degenerate_box Z nearest_resize 0 (fun v => v mod 256)
           sample_image _ _ _ 2 4 0 None H1 H2 H3).
Defined.


(** A run of [resize_image]: 3 columns by 2 rows under a size limit of 5. *)
Example resize_image_run :
  match resize_image Z nearest_resize sample_image None 2%Q 5%Q with
  | Ok (resized, scale) =>
      shape0 resized = 3 /\ shape1 resized = 5 /\ Qred scale = (5 # 3)%Q
  | Raise _ => False
  end.
Proof. repeat split. Qed.

End ScaleRuns.

(** ** adjust_boxes: scales compose, texts stay *)

Section AdjustFacts.

Import Boxes Coordinates.
Local Open Scope Q_scope.

















(** A round trip: times 4, then times a quarter. *)
Example adjust_boxes_round_trip :
  match adjust_boxes "boxes" [sample_box] 4 with
  | Ok once =>
      match adjust_boxes "boxes" once (1 # 4) with
      | Ok twice => map (map (fun p => (Qred (fst p), Qred (snd p)))) twice
                    = [sample_box]
      | Raise _ => False
      end
  | Raise _ => False
  end.
Proof. reflexivity. Qed.

(** X21: [adjust_boxes] moves coordinates only.  In the formats lines
    and predictions the characters and the words come back as they
    were, line by line and in order, at every scale. *)
Theorem adjust_boxes_keeps_texts
    (lines : list line) (predictions : list prediction) (scale : Q) :
  exists lines' predictions',
    adjust_boxes "lines" lines scale = Ok lines'
    /\ map (map snd) lines' = map (map snd) lines
    /\ adjust_boxes "predictions" predictions scale = Ok predictions'
    /\ map fst predictions' = map fst predictions.
Proof.
  unfold adjust_boxes.
  destruct (Qeq_bool scale 1).
  - exists lines, predictions. repeat split; reflexivity.
  - eexists. eexists. split; [ reflexivity | ].
    split; [ | split; [ reflexivity | ] ].
    + rewrite map_map. apply map_ext. intros l. rewrite map_map. reflexivity.
    + rewrite map_map. reflexivity.
Qed.

End AdjustFacts.

(** ** Geometry: what get_rotated_box and fix_line return *)

Section OrderingFacts.

Import Boxes Lines.
Local Open Scope Q_scope.

Variable minimum_rotated_rectangle : list point -> option (list point).

Variable argsort : list Q -> list nat.

Hypothesis argsort_sorts : sorts argsort.

Lemma rows_at_map_nth {A : Type} (a : list A) (idx : list nat) (d : A) :
  Forall (fun i => (i < length a)%nat) idx ->
  rows_at a idx = Ok (map (fun i => nth i a d) idx).
Proof.
  unfold rows_at. induction 1 as [ | i idx Hi _ IH ]; simpl; [ reflexivity | ].
  destruct (nth_error a i) as [ x | ] eqn:E.
  - rewrite IH. simpl. now rewrite (nth_error_nth _ _ d E).
  - apply nth_error_None in E. lia.
Qed.

Lemma map_nth_seq {A : Type} (a : list A) (d : A) :
  map (fun i => nth i a d) (seq 0 (length a)) = a.
Proof.
  assert (H : Forall (fun i => (i < length a)%nat) (seq 0 (length a))).
  { apply Forall_forall. intros i Hi. apply in_seq in Hi. lia. }
  pose proof (rows_at_map_nth a _ d H) as E. rewrite rows_at_seq in E.
  now injection E.
Qed.

Lemma strongly_sorted_map {A B : Type} (R : B -> B -> Prop) (g : A -> B) (l : list A) :
  StronglySorted (fun x y => R (g x) (g y)) l -> StronglySorted R (map g l).
Proof.
  induction 1 as [ | x l _ IH F ]; simpl; constructor; [ exact IH | ].
  apply Forall_map. exact F.
Qed.

Lemma key_map {A : Type} (f : A -> Q) (a : list A) (d : A) (i : nat) :
  (i < length a)%nat -> key (map f a) i = f (nth i a d).
Proof.
  intros Hi. unfold key.
  rewrite (nth_indep (map f a) 0 (f d)) by (rewrite length_map; exact Hi).
  apply map_nth.
Qed.

Lemma argsort_map_in_range {A : Type} (f : A -> Q) (a : list A) :
  Forall (fun i => (i < length a)%nat) (argsort (map f a)).
Proof.
  pose proof (argsort_in_range argsort (map f a) argsort_sorts) as H.
  now rewrite length_map in H.
Qed.

Lemma gathered_by_argsort {A : Type} (f : A -> Q) (a : list A) (d : A) :
  Permutation (map (fun i => nth i a d) (argsort (map f a))) a
  /\ StronglySorted (fun p q => f p <= f q)
                    (map (fun i => nth i a d) (argsort (map f a))).
Proof.
  destruct (argsort_sorts (map f a)) as [P S]. rewrite length_map in P.
  pose proof (argsort_map_in_range f a) as Hr.
  split.
  - rewrite <- (map_nth_seq a d) at 2. now apply Permutation_map.
  - apply strongly_sorted_map.
    eapply strongly_sorted_weaken; [ | exact S ].
    intros x y Hx Hy Hxy. rewrite Forall_forall in Hr.
    rewrite <- !(key_map f a d) by auto. exact Hxy.
Qed.

Lemma argsort_nil {A : Type} (f : A -> Q) : argsort (map f []) = [].
Proof.
  destruct (argsort_sorts (map f [])) as [P _]. simpl in P.
  now apply Permutation_sym, Permutation_nil in P.
Qed.

(** The rows an [argsort] of their keys picks: all of them, in
    non-decreasing order of the key. *)
Lemma rows_at_argsort {A : Type} (f : A -> Q) (a : list A) :
  exists r,
    rows_at a (argsort (map f a)) = Ok r
    /\ Permutation r a
    /\ StronglySorted (fun p q => f p <= f q) r.
Proof.
  destruct a as [ | d a' ].
  - rewrite argsort_nil. exists []. repeat split; constructor.
  - exists (map (fun i => nth i (d :: a') d) (argsort (map f (d :: a')))).
    split; [ apply rows_at_map_nth, argsort_map_in_range | ].
    apply gathered_by_argsort.
Qed.

Lemma rows_at_argsort_rev {A : Type} (f : A -> Q) (a : list A) :
  exists r,
    rows_at a (rev (argsort (map f a))) = Ok (rev r)
    /\ Permutation r a
    /\ StronglySorted (fun p q => f p <= f q) r.
Proof.
  destruct a as [ | d a' ].
  - rewrite argsort_nil. exists []. repeat split; constructor.
  - exists (map (fun i => nth i (d :: a') d) (argsort (map f (d :: a')))).
    split; [ | apply gathered_by_argsort ].
    rewrite <- map_rev. apply rows_at_map_nth.
    apply Forall_forall. intros i Hi. apply in_rev in Hi.
    pose proof (argsort_map_in_range f (d :: a')) as Hin.
    rewrite Forall_forall in Hin. now apply Hin.
Qed.

Lemma strongly_sorted_app_cross {A : Type} (R : A -> A -> Prop) (l1 l2 : list A) :
  StronglySorted R (l1 ++ l2) ->
  forall x y, In x l1 -> In y l2 -> R x y.
Proof.
  induction l1 as [ | a l1 IH ]; intros S x y Hx Hy; [ destruct Hx | ].
  simpl in S. inversion S as [ | ? ? S' F ]; subst.
  destruct Hx as [ <- | Hx ].
  - rewrite Forall_forall in F. apply F. apply in_or_app. now right.
  - now apply IH.
Qed.

Lemma get_rotated_box_result (points : list point) (b : box) :
  get_rotated_box minimum_rotated_rectangle argsort points = Ok b ->
  exists tl tr br bl,
    b = [tl; tr; br; bl]
    /\ Permutation b (match minimum_rotated_rectangle points with
                      | Some r => r
                      | None => points
                      end)
    /\ snd tl <= snd bl
    /\ (fst tl <= fst tr /\ fst tl <= fst br /\ fst bl <= fst tr /\ fst bl <= fst br)
    /\ sqdist tl tr <= sqdist tl br.
Proof.
  unfold get_rotated_box. cbv zeta.
  set (pts := match minimum_rotated_rectangle points with
              | Some r => r
              | None => points
              end).
  unfold box, point.
  destruct (rows_at_argsort (A := (Q * Q)%type) fst pts) as (xs & Hxs & Pxs & Sxs).
  rewrite Hxs. cbn [bind].
  destruct (rows_at_argsort (A := (Q * Q)%type) snd (firstn 2 xs))
    as (lm & Hlm & Plm & Slm).
  rewrite Hlm. cbn [bind].
  destruct lm as [ | tl [ | bl [ | ? ? ] ] ]; try discriminate.
  destruct (rows_at_argsort_rev (A := (Q * Q)%type) (sqdist tl) (skipn 2 xs))
    as (rm & Hrm & Prm & Srm).
  rewrite Hrm. cbn [bind].
  destruct (rev rm) as [ | br [ | tr [ | ? ? ] ] ] eqn:Erev; try discriminate.
  intros H. injection H as <-.
  assert (Erm : rm = [tr; br]).
  { rewrite <- (rev_involutive rm), Erev. reflexivity. }
  subst rm.
  exists tl, tr, br, bl. split; [ reflexivity | ].
  assert (Hcross : forall p q, In p [tl; bl] -> In q [tr; br] -> fst p <= fst q).
  { intros p q Hp Hq.
    apply (strongly_sorted_app_cross (fun a b : Q * Q => fst a <= fst b)
             (firstn 2 xs) (skipn 2 xs)).
    - now rewrite firstn_skipn.
    - eapply Permutation_in; eauto.
    - eapply Permutation_in; eauto. }
  split; [ | split; [ | split ] ].
  - apply Permutation_trans with (firstn 2 xs ++ skipn 2 xs);
      [ | rewrite firstn_skipn; exact Pxs ].
    apply Permutation_trans with ([tl; bl] ++ [tr; br]);
      [ | now apply Permutation_app ].
    simpl. apply perm_skip.
    apply Permutation_trans with (tr :: bl :: [br]);
      [ apply perm_skip; apply perm_swap | apply perm_swap ].
  - inversion Slm as [ | ? ? _ F ]; subst. now inversion F.
  - repeat split; apply Hcross; simpl; auto.
  - inversion Srm as [ | ? ? _ F ]; subst. now inversion F.
Qed.


(** X23: [get_rotated_box] returns exactly when the rectangle it is to
    order (shapely's, or the input points when shapely has none) has
    four points; on any other number of points it raises. *)
Theorem get_rotated_box_needs_four_points (points : list point) :
  (exists b, get_rotated_box minimum_rotated_rectangle argsort points = Ok b)
  <-> length (match minimum_rotated_rectangle points with
              | Some r => r
              | None => points
              end) = 4%nat.
Proof.
  split.
  - intros (b & Hb).
    destruct (get_rotated_box_result points b Hb) as (tl & tr & br & bl & -> & P & _).
    now rewrite <- (Permutation_length P).
  - unfold get_rotated_box. cbv zeta.
    set (pts := match minimum_rotated_rectangle points with
                | Some r => r
                | None => points
                end).
    intros Hlen. unfold box, point.
    destruct (rows_at_argsort (A := (Q * Q)%type) fst pts) as (xs & Hxs & Pxs & _).
    rewrite Hxs. cbn [bind].
    assert (Lxs : length xs = 4%nat)
      by (etransitivity; [ exact (Permutation_length Pxs) | exact Hlen ]).
    destruct xs as [ | p0 [ | p1 [ | p2 [ | p3 [ | ? ? ] ] ] ] ]; try discriminate.
    destruct (rows_at_argsort (A := (Q * Q)%type) snd (firstn 2 [p0; p1; p2; p3]))
      as (lm & Hlm & Plm & _).
    rewrite Hlm. cbn [bind].
    pose proof (Permutation_length Plm) as Llm. simpl in Llm.
    destruct lm as [ | tl [ | bl [ | ? ? ] ] ]; try discriminate.
    destruct (rows_at_argsort_rev (A := (Q * Q)%type) (sqdist tl)
                (skipn 2 [p0; p1; p2; p3]))
      as (rm & Hrm & Prm & _).
    rewrite Hrm. cbn [bind].
    pose proof (Permutation_length Prm) as Lrm. simpl in Lrm.
    destruct rm as [ | tr [ | br [ | ? ? ] ] ]; try discriminate.
    simpl rev. now eexists.
Qed.

Lemma centers_keys (f : point -> Q) (nl : line) :
  map f (centers nl) = map (fun bc => f (mean (fst bc))) nl.
Proof. unfold centers. apply map_map. Qed.

(** X24: whatever the boxes, a line [fix_line] returns consists of the
    normalised boxes of the input, each once with its character, in
    non-decreasing order of the centroid's y when it says vertical and
    of the centroid's x when it says horizontal; it says nothing else. *)
Theorem fix_line_sorts_by_centroid (l r : line) (orientation : string) :
  fix_line minimum_rotated_rectangle argsort l = Ok (r, orientation) ->
  exists nl,
    normalize_line minimum_rotated_rectangle argsort l = Ok nl
    /\ Permutation r nl
    /\ ((orientation = "vertical"%string
         /\ StronglySorted
              (fun a b => snd (mean (fst a)) <= snd (mean (fst b))) r)
        \/ (orientation = "horizontal"%string
            /\ StronglySorted
                 (fun a b => fst (mean (fst a)) <= fst (mean (fst b))) r)).
Proof.
  unfold fix_line.
  destruct (normalize_line minimum_rotated_rectangle argsort l) as [ nl | ];
    cbn [bind]; [ | discriminate ].
  intros H. exists nl. split; [ reflexivity | ].
  destruct nl as [ | bc nl' ]; [ discriminate | ].
  set (nl := bc :: nl') in *.
  rewrite (order_line_unfold argsort nl) in H by discriminate.
  unfold point in H.
  destruct (rows_at_argsort (A := (Q * Q)%type) snd (centers nl))
    as (by_y & Hy & _ & _).
  destruct (rows_at_argsort (A := (Q * Q)%type) fst (centers nl))
    as (by_x & Hx & _ & _).
  rewrite Hy, Hx in H. cbn [bind] in H.
  destruct (negb _) in H.
  - destruct (rows_at_argsort (fun bc => snd (mean (fst bc))) nl)
      as (r' & Hr' & Pr' & Sr').
    rewrite <- (centers_keys snd nl) in Hr'. unfold point in Hr'.
    rewrite Hr' in H. cbn [bind] in H.
    injection H as <- <-. split; [ exact Pr' | left; split; [ reflexivity | exact Sr' ] ].
  - destruct (rows_at_argsort (fun bc => fst (mean (fst bc))) nl)
      as (r' & Hr' & Pr' & Sr').
    rewrite <- (centers_keys fst nl) in Hr'. unfold point in Hr'.
    rewrite Hr' in H. cbn [bind] in H.
    injection H as <- <-. split; [ exact Pr' | right; split; [ reflexivity | exact Sr' ] ].
Qed.

End OrderingFacts.

Section OrderingRuns.

Import Boxes Lines LineSamples.


Lemma get_rotated_box_needs_four_points_witness :
  sorts insertion_argsort
  /\ length (match bounding_rectangle (sample_rectangle 0 5) with
             | Some r => r
             | None => sample_rectangle 0 5
             end) = 4%nat
  /\ exists b,
       get_rotated_box bounding_rectangle insertion_argsort (sample_rectangle 0 5)
       = Ok b.
Proof.
  assert (H : length (match bounding_rectangle (sample_rectangle 0 5) with
                      | Some r => r
                      | None => sample_rectangle 0 5
                      end) = 4%nat) by reflexivity.
  split; [ exact insertion_argsort_sorts | split; [ exact H | ] ].
  exact (proj2 (get_rotated_box_needs_four_points bounding_rectangle
                  insertion_argsort insertion_argsort_sorts
                  (sample_rectangle 0 5)) H).
Defined.

Lemma fix_line_sorts_by_centroid_witness :
  sorts insertion_argsort
  /\ fix_line bounding_rectangle insertion_argsort (rev sample_column)
     = Ok (sample_column_normalized, "vertical"%string)
  /\ exists nl,
       normalize_line bounding_rectangle insertion_argsort (rev sample_column)
       = Ok nl
       /\ Permutation sample_column_normalized nl
       /\ (("vertical"%string = "vertical"%string
            /\ StronglySorted
                 (fun a b => (snd (mean (fst a)) <= snd (mean (fst b)))%Q)
                 sample_column_normalized)
           \/ ("vertical"%string = "horizontal"%string
               /\ StronglySorted
                    (fun a b => (fst (mean (fst a)) <= fst (mean (fst b)))%Q)
                    sample_column_normalized)).
Proof.
  assert (H : fix_line bounding_rectangle insertion_argsort (rev sample_column)
              = Ok (sample_column_normalized, "vertical"%string))
    by (vm_compute; reflexivity).
  split; [ exact insertion_argsort_sorts | split; [ exact H | ] ].
  exact (fix_line_sorts_by_centroid bounding_rectangle insertion_argsort
           insertion_argsort_sorts (rev sample_column) sample_column_normalized
           "vertical" H).
Defined.

End OrderingRuns.

(** ** Line assembly: what combine_line returns *)

Section CombineFacts.

Import Boxes Lines Assembly.
Local Open Scope Q_scope.

Variable min_area_rect_points : list point -> list point.

Lemma argmin_from_spec (l pre : list Q) (best_i : nat) (best : Q) :
  (best_i < length pre)%nat ->
  nth best_i pre 0 = best ->
  (forall x, In x pre -> best <= x) ->
  (argmin_from best_i best (length pre) l < length (pre ++ l))%nat
  /\ forall x, In x (pre ++ l) ->
               nth (argmin_from best_i best (length pre) l) (pre ++ l) 0 <= x.
Proof.
  revert pre best_i best.
  induction l as [ | y l IH ]; intros pre best_i best Hi Hb Hmin; simpl.
  - rewrite app_nil_r. split; [ exact Hi | ]. intros x Hx. rewrite Hb. now apply Hmin.
  - assert (E : pre ++ y :: l = (pre ++ [y]) ++ l) by (now rewrite <- app_assoc).
    assert (L : S (length pre) = length (pre ++ [y]))
      by (rewrite length_app; simpl; lia).
    rewrite E, L.
    destruct (Qle_bool best y) eqn:C.
    + apply Qle_bool_iff in C. apply IH.
      * rewrite <- L. lia.
      * rewrite app_nth1 by exact Hi. exact Hb.
      * intros x Hx. apply in_app_or in Hx as [ Hx | [ <- | [] ] ]; auto.
    + assert (C' : y < best).
      { apply Qnot_le_lt. intros Hle. apply Qle_bool_iff in Hle. congruence. }
      apply IH.
      * rewrite <- L. lia.
      * rewrite app_nth2, Nat.sub_diag by lia. reflexivity.
      * intros x Hx. apply in_app_or in Hx as [ Hx | [ <- | [] ] ].
        -- specialize (Hmin x Hx). lra.
        -- apply Qle_refl.
Qed.

Lemma np_argmin_spec (l : list Q) (k : nat) :
  np_argmin l = Ok k ->
  (k < length l)%nat /\ forall x, In x l -> nth k l 0 <= x.
Proof.
  destruct l as [ | y l ]; simpl; [ discriminate | ].
  intros H. injection H as <-.
  apply (argmin_from_spec l [y] 0 y).
  - simpl. lia.
  - reflexivity.
  - intros x [ <- | [] ]. apply Qle_refl.
Qed.

Lemma roll_left_permutation {A : Type} (k : nat) (l : list A) :
  Permutation (roll_left k l) l.
Proof.
  unfold roll_left. rewrite <- (firstn_skipn k l) at 3.
  apply Permutation_app_comm.
Qed.

Lemma roll_left_head {A : Type} (k : nat) (l : list A) (d : A) :
  (k < length l)%nat -> hd_error (roll_left k l) = Some (nth k l d).
Proof.
  revert k. induction l as [ | x l IH ]; intros k Hk; simpl in Hk; [ lia | ].
  destruct k as [ | k ]; [ reflexivity | ].
  unfold roll_left in *. simpl.
  destruct (skipn k l) as [ | y rest ] eqn:E.
  - assert (Hlen : length (skipn k l) = 0%nat) by now rewrite E.
    rewrite length_skipn in Hlen. lia.
  - specialize (IH k ltac:(lia)). rewrite E in IH. exact IH.
Qed.

Lemma append_empty_r (s : string) : (s ++ "")%string = s.
Proof. induction s as [ | c s IH ]; simpl; [ reflexivity | now rewrite IH ]. Qed.

Lemma concat_empty_cons (x : string) (l : list string) :
  String.concat "" (x :: l) = (x ++ String.concat "" l)%string.
Proof.
  destruct l as [ | y l ]; simpl; [ now rewrite append_empty_r | reflexivity ].
Qed.

Lemma line_text_skips_none (l : line) :
  line_text l
  = String.concat ""
      (flat_map (fun bc => match snd bc with Some c => [c] | None => [] end) l).
Proof.
  unfold line_text. induction l as [ | [bx [ c | ]] l IH ].
  - reflexivity.
  - cbn [map flat_map snd app]. rewrite !concat_empty_cons. now rewrite IH.
  - cbn [map flat_map snd app]. rewrite concat_empty_cons. exact IH.
Qed.

Lemma map_result_ok_in {A B : Type} (f : A -> result B) (l : list A) (r : list B)
    (x : A) :
  map_result f l = Ok r -> In x l -> exists y, f x = Ok y.
Proof.
  revert r. induction l as [ | a l IH ]; intros r H Hin; [ destruct Hin | ].
  simpl in H. destruct (f a) as [ y | ] eqn:E; cbn [bind] in H; [ | discriminate ].
  destruct (map_result f l) as [ ys | ]; cbn [bind] in H; [ | discriminate ].
  destruct Hin as [ <- | Hin ]; [ now exists y | eapply IH; eauto ].
Qed.

Lemma line_cloud_first (l : line) (cloud : list point) :
  line_cloud l = Ok cloud ->
  exists bx ch rest first,
    l = (bx, ch) :: rest /\ hd_error bx = Some first /\ hd_error cloud = Some first.
Proof.
  unfold line_cloud. cbv zeta.
  match goal with
  | |- context [ map_result ?f (rev l) ] =>
      destruct (map_result f (rev l)) as [ tails | ] eqn:Ht
  end; cbn [bind]; [ | discriminate ].
  destruct l as [ | [bx ch] rest ].
  - simpl in Ht. injection Ht as <-. discriminate.
  - destruct (map_result_ok_in _ _ _ (bx, ch) Ht) as (y & Hy).
    { apply in_rev. rewrite rev_involutive. now left. }
    cbn [fst] in Hy.
    destruct (py_index bx 3) as [ c3 | ] eqn:E3; cbn [bind] in Hy; [ | discriminate ].
    assert (Hbx : exists first others, bx = first :: others).
    { destruct bx as [ | first others ]; [ discriminate | now eexists; eexists ]. }
    destruct Hbx as (first & others & ->).
    cbn [map fst firstn app]. intros H. injection H as <-.
    exists (first :: others), ch, rest, first.
    split; [ reflexivity | split; [ reflexivity | ] ].
    destruct others; reflexivity.
Qed.

(** X25: the box [combine_line] returns holds the corners of the
    rectangle around the line's point cloud, in their cyclic order and
    each once, rotated so that the corner nearest to the first corner of
    the first box comes first; the text is the characters of the line in
    order, an absent character counting for nothing. *)
Theorem combine_line_starts_at_nearest_corner
    (l : line) (b : box) (text : string) :
  combine_line min_area_rect_points l = Ok (b, text) ->
  exists cloud bx ch rest first nearest k,
    line_cloud l = Ok cloud
    /\ l = (bx, ch) :: rest
    /\ hd_error bx = Some first
    /\ b = roll_left k (min_area_rect_points cloud)
    /\ Permutation b (min_area_rect_points cloud)
    /\ hd_error b = Some nearest
    /\ (forall p, In p (min_area_rect_points cloud) ->
                  sqdist nearest first <= sqdist p first)
    /\ text = String.concat ""
                (flat_map (fun bc => match snd bc with
                                     | Some c => [c]
                                     | None => []
                                     end) l).
Proof.
  unfold combine_line. cbv zeta.
  destruct (line_cloud l) as [ cloud | ] eqn:Hc; cbn [bind]; [ | discriminate ].
  destruct (line_cloud_first l cloud Hc) as (bx & ch & rest & first & Hl & Hbx & Hfirst).
  rewrite (py_index_head cloud first Hfirst). cbn [bind].
  destruct (np_argmin _) as [ k | ] eqn:Hk; cbn [bind]; [ | discriminate ].
  intros H. injection H as <- <-.
  apply np_argmin_spec in Hk as [Hlt Hmin]. rewrite length_map in Hlt.
  exists cloud, bx, ch, rest, first,
    (nth k (min_area_rect_points cloud) (0, 0)), k.
  split; [ reflexivity | split; [ exact Hl | split; [ exact Hbx | ] ] ].
  split; [ reflexivity | split; [ apply roll_left_permutation | ] ].
  split; [ now apply roll_left_head | split ].
  - intros p Hp.
    specialize (Hmin (sqdist p first) (in_map (fun q => sqdist q first) _ _ Hp)).
    rewrite (nth_indep _ 0 (sqdist (0, 0) first)) in Hmin
      by (rewrite length_map; exact Hlt).
    rewrite (map_nth (fun q => sqdist q first)) in Hmin. exact Hmin.
  - apply line_text_skips_none.
Qed.

End CombineFacts.

Section CombineRuns.

Import Boxes Lines Assembly.

(** A stand-in for OpenCV on axis-parallel clouds: the corners of the
    bounding rectangle, from the bottom left. *)
Lemma combine_line_starts_at_nearest_corner_witness :
  exists b,
    combine_line (fun cloud => match bounding_rectangle cloud with
                               | Some r => r
                               | None => cloud
                               end)
                 [ ([(0, 0); (4, 0); (4, 6); (0, 6)]%Q, Some "o"%string);
                   ([(5, 0); (9, 0); (9, 6); (5, 6)]%Q, None);
                   ([(10, 0); (14, 0); (14, 6); (10, 6)]%Q, Some "k"%string) ]
    = Ok (b, "ok"%string)
    /\ hd_error b = Some (0, 0)%Q.
Proof.
  eexists. split; [ vm_compute; reflexivity | ].
  match goal with
  | |- hd_error ?b = _ =>
      destruct (combine_line_starts_at_nearest_corner
                  (fun cloud => match bounding_rectangle cloud with
                                | Some r => r
                                | None => cloud
                                end)
                  [ ([(0, 0); (4, 0); (4, 6); (0, 6)]%Q, Some "o"%string);
                    ([(5, 0); (9, 0); (9, 6); (5, 6)]%Q, None);
                    ([(10, 0); (14, 0); (14, 6); (10, 6)]%Q, Some "k"%string) ]
                  b "ok"%string)
        as (cloud & bx & ch & rest & first & nearest & k & _)
  end; reflexivity.
Defined.

End CombineRuns.

(** ** Line assembly: the rule that decides the orientation *)

Section OrientationRule.

Import Boxes Lines Spread.
Local Open Scope Q_scope.

Variable minimum_rotated_rectangle : list point -> option (list point).

Variable argsort : list Q -> list nat.

Hypothesis argsort_sorts : sorts argsort.

Lemma fold_max_upper (a : Q) (l : list Q) :
  (forall x, In x (a :: l) -> x <= fold_right Qmax a l)
  /\ exists x, In x (a :: l) /\ x == fold_right Qmax a l.
Proof.
  induction l as [ | b l [IHu (m & Hm & Em)] ]; simpl.
  - split; [ intros x [ <- | [] ]; apply Qle_refl | ].
    exists a. split; [ now left | reflexivity ].
  - split.
    + intros x [ <- | [ <- | Hx ] ].
      * eapply Qle_trans; [ apply IHu; now left | apply Q.le_max_r ].
      * apply Q.le_max_l.
      * eapply Qle_trans; [ apply IHu; now right | apply Q.le_max_r ].
    + destruct (Q.max_spec b (fold_right Qmax a l)) as [ [_ E] | [_ E] ].
      * exists m. split; [ | now rewrite E ].
        destruct Hm as [ <- | Hm ]; [ now left | now right; right ].
      * exists b. split; [ now right; left | now rewrite E ].
Qed.

Lemma fold_min_lower (a : Q) (l : list Q) :
  (forall x, In x (a :: l) -> fold_right Qmin a l <= x)
  /\ exists x, In x (a :: l) /\ x == fold_right Qmin a l.
Proof.
  induction l as [ | b l [IHu (m & Hm & Em)] ]; simpl.
  - split; [ intros x [ <- | [] ]; apply Qle_refl | ].
    exists a. split; [ now left | reflexivity ].
  - split.
    + intros x [ <- | [ <- | Hx ] ].
      * eapply Qle_trans; [ apply Q.le_min_r | apply IHu; now left ].
      * apply Q.le_min_l.
      * eapply Qle_trans; [ apply Q.le_min_r | apply IHu; now right ].
    + destruct (Q.min_spec b (fold_right Qmin a l)) as [ [_ E] | [_ E] ].
      * exists b. split; [ now right; left | now rewrite E ].
      * exists m. split; [ | now rewrite E ].
        destruct Hm as [ <- | Hm ]; [ now left | now right; right ].
Qed.

(** The extent is the difference of any upper and lower bound that the
    vector attains. *)
Lemma extent_between (l : list Q) (lo hi : Q) :
  (exists x, In x l /\ x == lo) -> (forall x, In x l -> lo <= x) ->
  (exists x, In x l /\ x == hi) -> (forall x, In x l -> x <= hi) ->
  extent l == hi - lo.
Proof.
  intros (xl & Hxl & El) Hlo (xh & Hxh & Eh) Hhi.
  destruct l as [ | a l ]; [ destruct Hxl | ]. unfold extent.
  destruct (fold_max_upper a l) as [Mu (m & Hm & Em)].
  destruct (fold_min_lower a l) as [Ml (n & Hn & En)].
  assert (E1 : fold_right Qmax a l == hi).
  { apply Qle_antisym.
    - rewrite <- Em. now apply Hhi.
    - rewrite <- Eh. now apply Mu. }
  assert (E2 : fold_right Qmin a l == lo).
  { apply Qle_antisym.
    - rewrite <- El. now apply Ml.
    - rewrite <- En. now apply Hlo. }
  now rewrite E1, E2.
Qed.

Lemma last_of_cons (l : list Q) (b d d' : Q) :
  last (b :: l) d = last (b :: l) d'.
Proof.
  revert b. induction l as [ | c l IH ]; intros b; [ reflexivity | ].
  change (last (b :: c :: l) d) with (last (c :: l) d).
  change (last (b :: c :: l) d') with (last (c :: l) d').
  apply IH.
Qed.

Lemma sum_diff_telescopes (a : Q) (l : list Q) :
  sum (diff (a :: l)) == last (a :: l) a - a.
Proof.
  revert a. induction l as [ | b l IH ]; intros a.
  - unfold sum. simpl. ring.
  - change (diff (a :: b :: l)) with ((b - a) :: diff (b :: l)).
    change (sum ((b - a) :: diff (b :: l)))
      with ((b - a) + sum (diff (b :: l))).
    rewrite IH.
    change (last (a :: b :: l) a) with (last (b :: l) a).
    rewrite (last_of_cons l b a b). ring.
Qed.

Lemma sorted_last_upper (a : Q) (l : list Q) :
  StronglySorted Qle (a :: l) ->
  forall x, In x (a :: l) -> x <= last (a :: l) a.
Proof.
  revert a. induction l as [ | b l IH ]; intros a S x Hx.
  - destruct Hx as [ <- | [] ]. apply Qle_refl.
  - inversion S as [ | ? ? S' F ]; subst.
    change (last (a :: b :: l) a) with (last (b :: l) a).
    rewrite (last_of_cons l b a b).
    destruct Hx as [ <- | Hx ]; [ | now apply IH ].
    eapply Qle_trans; [ | apply (IH b S' b); now left ].
    inversion F; subst. assumption.
Qed.

Lemma last_is_member (a : Q) (l : list Q) : In (last (a :: l) a) (a :: l).
Proof.
  revert a. induction l as [ | b l IH ]; intros a; [ now left | ].
  change (last (a :: b :: l) a) with (last (b :: l) a).
  rewrite (last_of_cons l b a b). right. apply IH.
Qed.

(** On a vector in ascending order the consecutive differences add up to
    the extent of any rearrangement of it. *)
Lemma sum_diff_sorted (s l : list Q) :
  StronglySorted Qle s -> Permutation s l -> sum (diff s) == extent l.
Proof.
  intros S P. destruct s as [ | a s ].
  - apply Permutation_nil in P. subst l. reflexivity.
  - rewrite sum_diff_telescopes. symmetry. apply extent_between.
    + exists a. split; [ | reflexivity ].
      apply (Permutation_in _ P). now left.
    + intros x Hx. apply (Permutation_in _ (Permutation_sym P)) in Hx.
      destruct Hx as [ <- | Hx ]; [ apply Qle_refl | ].
      inversion S as [ | ? ? _ F ]; subst.
      rewrite Forall_forall in F. now apply F.
    + exists (last (a :: s) a). split; [ | reflexivity ].
      apply (Permutation_in _ P). apply last_is_member.
    + intros x Hx. apply (Permutation_in _ (Permutation_sym P)) in Hx.
      now apply sorted_last_upper.
Qed.

(** X26: the orientation [fix_line] reports is decided by the spread of
    the centroids alone: it says vertical exactly when the centroids'
    y coordinates extend over a strictly longer range than their x
    coordinates, and horizontal otherwise, ties included. *)
Theorem fix_line_orientation_rule (l r : line) (orientation : string) :
  fix_line minimum_rotated_rectangle argsort l = Ok (r, orientation) ->
  exists nl,
    normalize_line minimum_rotated_rectangle argsort l = Ok nl
    /\ (orientation = "vertical"%string
        <-> extent (map fst (centers nl)) < extent (map snd (centers nl)))
    /\ (orientation = "horizontal"%string
        <-> extent (map snd (centers nl)) <= extent (map fst (centers nl))).
Proof.
  unfold fix_line.
  destruct (normalize_line minimum_rotated_rectangle argsort l) as [ nl | ];
    cbn [bind]; [ | discriminate ].
  intros H. exists nl. split; [ reflexivity | ].
  destruct nl as [ | bc nl' ]; [ discriminate | ].
  set (nl := bc :: nl') in *.
  rewrite (order_line_unfold argsort nl) in H by discriminate.
  unfold point in H.
  destruct (rows_at_argsort argsort argsort_sorts (A := (Q * Q)%type) snd
              (centers nl)) as (by_y & Hy & Py & Sy).
  destruct (rows_at_argsort argsort argsort_sorts (A := (Q * Q)%type) fst
              (centers nl)) as (by_x & Hx & Px & Sx).
  rewrite Hy, Hx in H. cbn [bind] in H.
  assert (Ey : sum (diff (map snd by_y)) == extent (map snd (centers nl))).
  { apply sum_diff_sorted.
    - now apply strongly_sorted_map.
    - now apply Permutation_map. }
  assert (Ex : sum (diff (map fst by_x)) == extent (map fst (centers nl))).
  { apply sum_diff_sorted.
    - now apply strongly_sorted_map.
    - now apply Permutation_map. }
  rewrite <- Ey, <- Ex.
  destruct (Qle_bool (sum (diff (map snd by_y))) (sum (diff (map fst by_x))))
    eqn:C; cbn [negb] in H.
  - apply Qle_bool_iff in C.
    destruct (rows_at nl (argsort (map fst (centers nl)))) as [ r' | ];
      cbn [bind] in H; [ | discriminate ].
    injection H as _ <-. split; split.
    + discriminate.
    + intros Hlt. exfalso. exact (Qlt_not_le _ _ Hlt C).
    + intros _. exact C.
    + reflexivity.
  - assert (Hlt : sum (diff (map fst by_x)) < sum (diff (map snd by_y))).
    { apply Qnot_le_lt. intros Hle. apply Qle_bool_iff in Hle. congruence. }
    destruct (rows_at nl (argsort (map snd (centers nl)))) as [ r' | ];
      cbn [bind] in H; [ | discriminate ].
    injection H as _ <-. split; split.
    + intros _. exact Hlt.
    + reflexivity.
    + discriminate.
    + intros Hle. exfalso. exact (Qlt_not_le _ _ Hlt Hle).
Qed.

End OrientationRule.

Section OrientationRuns.

Import Boxes Lines LineSamples Spread.

Lemma fix_line_orientation_rule_witness :
  fix_line bounding_rectangle insertion_argsort (rev sample_column)
  = Ok (sample_column_normalized, "vertical"%string)
  /\ exists nl,
       normalize_line bounding_rectangle insertion_argsort (rev sample_column)
       = Ok nl
       /\ ("vertical"%string = "vertical"%string
           <-> (extent (map fst (centers nl)) < extent (map snd (centers nl)))%Q)
       /\ ("vertical"%string = "horizontal"%string
           <-> (extent (map snd (centers nl)) <= extent (map fst (centers nl)))%Q).
Proof.
  assert (H : fix_line bounding_rectangle insertion_argsort (rev sample_column)
              = Ok (sample_column_normalized, "vertical"%string))
    by (vm_compute; reflexivity).
  split; [ exact H | ].
  exact (fix_line_orientation_rule bounding_rectangle insertion_argsort
           insertion_argsort_sorts (rev sample_column) sample_column_normalized
           "vertical" H).
Defined.

End OrientationRuns.
